(** * Glicemia Control: the statistics, classification, save and history-query
    logic of [GlicemiaTracker] (App.jsx), embedded over IEEE-754 binary64.

    JavaScript numbers are modelled by the Standard Library's [spec_float]
    at precision 53 and maximal exponent 1024, JavaScript strings by
    [string] (UTF-8 bytes), and the React state that the functions read and
    write by explicit values passed in and out. *)

From Stdlib Require Import ZArith List String Ascii Bool Lia Permutation.
From Stdlib Require Import Sorting.Sorted.
From Stdlib Require Import Floats.SpecFloat DecimalString QArith Qpower Qround.
Import ListNotations.

Local Open Scope string_scope.
Local Open Scope Z_scope.

(* ================================================================== *)
(** ** JavaScript numbers *)
(* ================================================================== *)

Module JS.

Definition number := spec_float.

Definition prec : Z := 53.
Definition emax : Z := 1024.

Definition NaN : number := S754_nan.
Definition Infinity : number := S754_infinity false.
Definition NegInfinity : number := S754_infinity true.
Definition pzero : number := S754_zero false.
Definition nzero : number := S754_zero true.

(** The Number value of a mathematical integer (round to nearest, ties to
    even; overflow gives an infinity). *)
Definition of_Z (z : Z) : number := binary_normalize prec emax z 0 false.

Definition of_nat (n : nat) : number := of_Z (Z.of_nat n).

(** [x + y] and [x / y]. *)
Definition add (x y : number) : number := SFadd prec emax x y.
Definition div (x y : number) : number := SFdiv prec emax x y.

(** The relational operators [<], [<=], [>], [>=] on numbers: every
    comparison with NaN is false. *)
Definition lt (x y : number) : bool := SFltb x y.
Definition le (x y : number) : bool := SFleb x y.
Definition gt (x y : number) : bool := SFltb y x.
Definition ge (x y : number) : bool := SFleb y x.

(** The global [isNaN] on a number. *)
Definition isNaN (x : number) : bool :=
  match x with S754_nan => true | _ => false end.

Definition is_finite (x : number) : bool :=
  match x with S754_zero _ | S754_finite _ _ _ => true | _ => false end.

(** Well-formed binary64 values: a finite value is in canonical form. *)
Definition valid (x : number) : bool := valid_binary prec emax x.

End JS.

Declare Scope js_scope.
Notation "x <? y" := (JS.lt x y) : js_scope.
Notation "x <=? y" := (JS.le x y) : js_scope.
Notation "x >? y" := (JS.gt x y) : js_scope.
Notation "x >=? y" := (JS.ge x y) : js_scope.
Delimit Scope js_scope with js.

(** The numeric literals of the source. *)
Definition n0 : JS.number := JS.pzero.
Definition n70 : JS.number := Eval cbv in JS.of_Z 70.
Definition n130 : JS.number := Eval cbv in JS.of_Z 130.
Definition n180 : JS.number := Eval cbv in JS.of_Z 180.

(* ================================================================== *)
(** ** Strings to numbers: the global [parseFloat] *)
(* ================================================================== *)

(** [TrimString(s, start)]: leading WhiteSpace and LineTerminator code points
    are dropped. The one-byte ones are TAB, LF, VT, FF, CR and SP; the others
    are matched on their UTF-8 encodings (U+00A0, U+1680, U+2000..U+200A,
    U+2028, U+2029, U+202F, U+205F, U+3000, U+FEFF). *)
Definition is_ws1 (c : ascii) : bool :=
  let n := N_of_ascii c in
  ((9 <=? n) && (n <=? 13))%N || (n =? 32)%N.

Definition is_ws2 (a b : ascii) : bool :=
  ((N_of_ascii a =? 194) && (N_of_ascii b =? 160))%N.

Definition is_ws3 (a b c : ascii) : bool :=
  let x := N_of_ascii a in
  let y := N_of_ascii b in
  let z := N_of_ascii c in
  ((x =? 225) && (y =? 154) && (z =? 128))%N
  || ((x =? 226) && (y =? 128) && (128 <=? z) && (z <=? 138))%N
  || ((x =? 226) && (y =? 128) && ((z =? 168) || (z =? 169) || (z =? 175)))%N
  || ((x =? 226) && (y =? 129) && (z =? 159))%N
  || ((x =? 227) && (y =? 128) && (z =? 128))%N
  || ((x =? 239) && (y =? 187) && (z =? 191))%N.

Fixpoint trimStart (s : string) : string :=
  match s with
  | String a r1 =>
      if is_ws1 a then trimStart r1
      else match r1 with
           | String b r2 =>
               if is_ws2 a b then trimStart r2
               else match r2 with
                    | String c r3 => if is_ws3 a b c then trimStart r3 else s
                    | EmptyString => s
                    end
           | EmptyString => s
           end
  | EmptyString => s
  end.

Definition digit_of (c : ascii) : option Z :=
  let n := Z.of_N (N_of_ascii c) in
  if (48 <=? n) && (n <=? 57) then Some (n - 48) else None.

(** Reads the longest run of decimal digits: its value on top of [acc], how
    many digits were read on top of [cnt], and the rest of the string. *)
Fixpoint read_digits (s : string) (acc : Z) (cnt : nat) : Z * nat * string :=
  match s with
  | String c r =>
      match digit_of c with
      | Some d => read_digits r (10 * acc + d) (S cnt)
      | None => (acc, cnt, s)
      end
  | EmptyString => (acc, cnt, s)
  end.

(** The optional ExponentPart [e|E (+|-)? DecimalDigits]; a malformed one is
    not part of the longest valid prefix and counts as absent. *)
Definition read_exponent (s : string) : Z :=
  match s with
  | String c r =>
      if (Ascii.eqb c "e" || Ascii.eqb c "E")%bool then
        match r with
        | String sg r' =>
            if Ascii.eqb sg "-" then
              let '(v, k, _) := read_digits r' 0 0%nat in
              match k with O => 0 | _ => - v end
            else if Ascii.eqb sg "+" then
              let '(v, k, _) := read_digits r' 0 0%nat in
              match k with O => 0 | _ => v end
            else
              let '(v, _, _) := read_digits r 0 0%nat in v
        | EmptyString => 0
        end
      else 0
  | EmptyString => 0
  end.

(** The Number value of [(-1)^neg * m * 10^e] for a natural [m]: the exact
    decimal is rounded once, to nearest with ties to even. *)
Definition number_of_decimal (neg : bool) (m e : Z) : JS.number :=
  match m with
  | Zpos p =>
      if 0 <=? e
      then binary_round JS.prec JS.emax neg (p * Z.to_pos (10 ^ e)) 0
      else SFdiv JS.prec JS.emax
             (S754_finite neg p 0)
             (S754_finite false (Z.to_pos (10 ^ (- e))) 0)
  | _ => S754_zero neg
  end.

(** StrUnsignedDecimalLiteral, longest prefix. *)
Definition parse_unsigned (neg : bool) (s : string) : JS.number :=
  if String.prefix "Infinity" s then S754_infinity neg
  else
    let '(iv, ik, r1) := read_digits s 0 0%nat in
    match r1 with
    | String "." r2 =>
        let '(mv, fk, r3) := read_digits r2 iv 0%nat in
        match ik, fk with
        | O, O => JS.NaN
        | _, _ => number_of_decimal neg mv (read_exponent r3 - Z.of_nat fk)
        end
    | _ =>
        match ik with
        | O => JS.NaN
        | _ => number_of_decimal neg iv (read_exponent r1)
        end
    end.

Definition parseFloat (input : string) : JS.number :=
  match trimStart input with
  | String "-" r => parse_unsigned true r
  | String "+" r => parse_unsigned false r
  | s => parse_unsigned false s
  end.

(* ================================================================== *)
(** ** Numbers to strings: [Number.prototype.toFixed] *)
(* ================================================================== *)

(** Decimal digits of a natural number, ["0"] for zero. *)
Definition decimal (n : Z) : string :=
  DecimalString.NilZero.string_of_uint (N.to_uint (Z.to_N n)).

(** The mathematical integer of a finite number at or above [2^53]. *)
Definition integer_value (m : positive) (e : Z) : Z := Z.pos m * 2 ^ e.

(** [Number::toString] for a finite [x >= 10^21], of integer value [X]: the
    shortest decimal [s * 10^j] whose Number value is [x], the one closer to
    [X] when two such [s] exist; [j] is tried from [fuel - 1] down to 0.
    The result is always in exponential notation there. *)
Definition roundtrips (x : JS.number) (v : Z) : bool :=
  SFeqb (JS.of_Z v) x.

Definition exponential (s j : Z) : string :=
  let ds := decimal s in
  let n := Z.of_nat (String.length ds) + j in
  match ds with
  | String d EmptyString => String d ("e+" ++ decimal (n - 1))
  | String d rest => String d ("." ++ rest ++ "e+" ++ decimal (n - 1))
  | EmptyString => EmptyString
  end.

Fixpoint toString_large (fuel : nat) (x : JS.number) (X : Z) : string :=
  match fuel with
  | O => decimal X
  | S j' =>
      let j := Z.of_nat j' in
      let lo := X / 10 ^ j in
      let hi := lo + 1 in
      let lo_ok := (0 <? lo) && roundtrips x (lo * 10 ^ j) in
      let hi_ok := roundtrips x (hi * 10 ^ j) in
      match lo_ok, hi_ok with
      | true, true =>
          let dlo := X - lo * 10 ^ j in
          let dhi := hi * 10 ^ j - X in
          if dlo <? dhi then exponential lo j
          else if dhi <? dlo then exponential hi j
          else exponential (if Z.even lo then lo else hi) j
      | true, false => exponential lo j
      | false, true => exponential hi j
      | false, false => toString_large j' x X
      end
  end.

(** The integer [n] for which [n / 10^f - m * 2^e] is as close to zero as
    possible, the larger one when there are two. *)
Definition nearest_scaled (m : positive) (e : Z) (f : nat) : Z :=
  let t := Z.pos m * 10 ^ Z.of_nat f in
  if 0 <=? e then t * 2 ^ e
  else (2 * t + 2 ^ (- e)) / 2 ^ (- e + 1).

(** Digits of [n] with a point before the last [f] of them, zero-padded on
    the left to at least [f + 1] digits. *)
Fixpoint zeros (k : nat) : string :=
  match k with O => EmptyString | S k' => String "0" (zeros k') end.

Definition fixed_digits (n : Z) (f : nat) : string :=
  let m := decimal n in
  match f with
  | O => m
  | _ =>
      let k := String.length m in
      let m' := if (k <=? f)%nat then zeros (f + 1 - k) ++ m else m in
      let k' := String.length m' in
      String.substring 0 (k' - f) m' ++ "." ++ String.substring (k' - f) f m'
  end.

Definition ten21 : Z := 10 ^ 21.

Definition toFixed (x : JS.number) (f : nat) : string :=
  match x with
  | S754_nan => "NaN"
  | S754_infinity false => "Infinity"
  | S754_infinity true => "-Infinity"
  | S754_zero _ => fixed_digits 0 f
  | S754_finite s m e =>
      let sign := if s then "-" else "" in
      if (0 <=? e) && (ten21 <=? integer_value m e)
      then sign ++ toString_large 310 (S754_finite false m e) (integer_value m e)
      else sign ++ fixed_digits (nearest_scaled m e f) f
  end.

(* ================================================================== *)
(** ** [Math.min] and [Math.max] *)
(* ================================================================== *)

Definition min_step (lowest number : JS.number) : JS.number :=
  match number, lowest with
  | S754_zero true, S754_zero false => number
  | _, _ => if (number <? lowest)%js then number else lowest
  end.

Definition max_step (highest number : JS.number) : JS.number :=
  match number, highest with
  | S754_zero false, S754_zero true => number
  | _, _ => if (number >? highest)%js then number else highest
  end.

(** The loop shared by [Math.min] and [Math.max]: a NaN argument ends it
    with NaN, any other argument goes through the step. *)
Fixpoint extremum_loop (step : JS.number -> JS.number -> JS.number)
    (best : JS.number) (args : list JS.number) : JS.number :=
  match args with
  | [] => best
  | number :: rest =>
      if JS.isNaN number then JS.NaN
      else extremum_loop step (step best number) rest
  end.

Definition Math_min (args : list JS.number) : JS.number :=
  extremum_loop min_step JS.Infinity args.
Definition Math_max (args : list JS.number) : JS.number :=
  extremum_loop max_step JS.NegInfinity args.

(* ================================================================== *)
(** ** Records, statistics and row style (GlicemiaTracker) *)
(* ================================================================== *)

(** A [Date] object is its time value: milliseconds since the epoch, or
    [None] for an Invalid Date (time value NaN). A Firestore [Timestamp]
    carries an instant likewise, [None] when it was made from an Invalid
    Date. *)
Definition Date := option Z.
Definition Timestamp := option Z.

(** The seconds that the constructor of [Timestamp] admits: from
    0001-01-01T00:00:00Z up to, not including, 10000-01-01T00:00:00Z. *)
Definition MIN_SECONDS : Z := -62135596800.
Definition MAX_SECONDS : Z := 253402300800.

Definition timestamp_range (ms : Z) : bool :=
  (MIN_SECONDS <=? ms / 1000) && (ms / 1000 <? MAX_SECONDS).

Definition show_int (z : Z) : string :=
  if z <? 0 then "-" ++ decimal (- z) else decimal z.

(** [Timestamp.fromDate(date)]: the timestamp of the date, or, on the right,
    the message of the error that the constructor throws for seconds out of
    range. An Invalid Date passes the range tests, every comparison with NaN
    being false, and gives a timestamp that is no instant. *)
Definition Timestamp_fromDate (d : Date) : Timestamp + string :=
  match d with
  | None => inl None
  | Some ms =>
      if timestamp_range ms then inl (Some ms)
      else inr ("Timestamp seconds out of range: " ++ show_int (ms / 1000))
  end.

(** The fields that [handleSave] writes. *)
Record Doc := {
  doc_glicemia : string;
  doc_data : string;
  doc_hora : string;
  doc_timestamp : Timestamp
}.

(** An element of [registros]: [{ id: doc.id, ...doc.data() }]. *)
Record Registro := {
  id : string;
  glicemia : string;
  data : string;
  hora : string;
  timestamp : Timestamp
}.

(** A property of the statistics object holds a number (the literal 0 of the
    empty case) or a string (the result of [toFixed]). *)
Inductive value :=
  | VNum (n : JS.number)
  | VStr (s : string).

Record Stats := {
  avg : value;
  count : nat;
  min : value;
  max : value;
  status : string;
  color : option string
}.

(** The [if]/[else if] chain on the average, lines 519-533. *)
Definition status_color (avg : JS.number) : string * string :=
  if (avg <? n70)%js then ("hipoglicemia", "bg-blue-500")
  else if (avg >? n180)%js then ("hiperglicemia", "bg-red-500")
  else if (avg >=? n70)%js && (avg <=? n130)%js then ("ótimo", "bg-lime-600")
  else if (avg >? n130)%js && (avg <=? n180)%js then ("moderado", "bg-yellow-500")
  else ("normal", "bg-green-500").

(** [registros.map(r => parseFloat(r.glicemia)).filter(v => !isNaN(v))] *)
Definition parsed_values (registros : list Registro) : list JS.number :=
  filter (fun v => negb (JS.isNaN v)) (map (fun r => parseFloat (glicemia r)) registros).

(** [values.reduce((acc, v) => acc + v, 0)] *)
Definition sum_values (values : list JS.number) : JS.number :=
  fold_left (fun acc v => JS.add acc v) values n0.

(** [sum / values.length] *)
Definition average (values : list JS.number) : JS.number :=
  JS.div (sum_values values) (JS.of_nat (List.length values)).

Definition stats (registros : list Registro) : Stats :=
  if (List.length registros =? 0)%nat then
    {| avg := VNum n0; count := 0; min := VNum n0; max := VNum n0;
       status := "info"; color := None |}
  else
    let values := parsed_values registros in
    let avg := average values in
    let min := Math_min values in
    let max := Math_max values in
    let count := List.length values in
    let '(status, color) := status_color avg in
    {| avg := VStr (toFixed avg 1);
       count := count;
       min := VStr (toFixed min 0);
       max := VStr (toFixed max 0);
       status := status;
       color := Some color |}.

(** The body of [getGlicemiaStyle] after [parseFloat]. *)
Definition style_of (val : JS.number) : string :=
  if (val <? n70)%js then "text-blue-600 font-bold bg-blue-50 border-blue-200"
  else if (val <=? n130)%js then "text-green-600 font-bold bg-green-50 border-green-200"
  else if (val <=? n180)%js then "text-yellow-700 font-bold bg-yellow-50 border-yellow-200"
  else "text-red-600 font-bold bg-red-50 border-red-200".

Definition getGlicemiaStyle (value : string) : string :=
  style_of (parseFloat value).

(** *** Status bands *)

Inductive StatusBand := Hypoglycemia | Optimal | Moderate | Hyperglycemia.

(** The band that each row style displays. *)
Definition band_of_style (s : string) : option StatusBand :=
  if String.eqb s "text-blue-600 font-bold bg-blue-50 border-blue-200" then Some Hypoglycemia
  else if String.eqb s "text-green-600 font-bold bg-green-50 border-green-200" then Some Optimal
  else if String.eqb s "text-yellow-700 font-bold bg-yellow-50 border-yellow-200" then Some Moderate
  else if String.eqb s "text-red-600 font-bold bg-red-50 border-red-200" then Some Hyperglycemia
  else None.

(** The band that each summary status names; ['normal'] and ['info'] name
    none of the four. *)
Definition band_of_status (s : string) : option StatusBand :=
  if String.eqb s "hipoglicemia" then Some Hypoglycemia
  else if String.eqb s "ótimo" then Some Optimal
  else if String.eqb s "moderado" then Some Moderate
  else if String.eqb s "hiperglicemia" then Some Hyperglycemia
  else None.

(** The four ranges of the classifier contract, read with the comparison
    operators of the language. *)
Definition in_band (b : StatusBand) (v : JS.number) : bool :=
  match b with
  | Hypoglycemia => (v <? n70)%js
  | Optimal => (v >=? n70)%js && (v <=? n130)%js
  | Moderate => (v >? n130)%js && (v <=? n180)%js
  | Hyperglycemia => (v >? n180)%js
  end.

(* ================================================================== *)
(** ** The order on numbers, as a lexicographic key *)
(* ================================================================== *)

(** [key] sends every number but NaN to a triple whose lexicographic order
    is the order that [SFcompare] computes; the two zeros share a key. *)
Definition key (x : JS.number) : Z * Z * Z :=
  match x with
  | S754_nan => (3, 0, 0)
  | S754_infinity true => (-2, 0, 0)
  | S754_infinity false => (2, 0, 0)
  | S754_zero _ => (0, 0, 0)
  | S754_finite true m e => (-1, - e, - Z.pos m)
  | S754_finite false m e => (1, e, Z.pos m)
  end.

Definition lexcmp (a b : Z * Z * Z) : comparison :=
  let '(a1, a2, a3) := a in
  let '(b1, b2, b3) := b in
  match a1 ?= b1 with
  | Eq => match a2 ?= b2 with Eq => a3 ?= b3 | c => c end
  | c => c
  end.

(** [skey] refines [key] by placing [-0] just below [+0]: it is injective
    on the numbers other than NaN. *)
Definition skey (x : JS.number) : Z * Z * Z :=
  match x with
  | S754_zero true => (0, -1, 0)
  | _ => key x
  end.

(* ================================================================== *)
(** ** The rational value of a finite number *)
(* ================================================================== *)

Definition toQ (x : JS.number) : Q :=
  match x with
  | S754_finite s m e =>
      ((if s then (-1) else 1) * inject_Z (Z.pos m) * (2 # 1) ^ e)%Q
  | _ => 0%Q
  end.

(** The value of a well-formed finite number in units of [2^-1074], the
    smallest positive number: an integer. *)
Definition scaled (x : JS.number) : Z :=
  match x with
  | S754_finite s m e => (if s then -1 else 1) * (Z.pos m * 2 ^ (e + 1074))
  | _ => 0
  end.

(** The four ranges of the classifier contract on the rational line. *)
Definition in_range (b : StatusBand) (q : Q) : Prop :=
  match b with
  | Hypoglycemia => (q < 70)%Q
  | Optimal => (70 <= q /\ q <= 130)%Q
  | Moderate => (130 < q /\ q <= 180)%Q
  | Hyperglycemia => (180 < q)%Q
  end.

(** Whether [n] replaces [l] in the loop of [Math.min] (of [Math.max]), in
    terms of the injective key. *)
Definition min_better (n l : JS.number) : bool :=
  match lexcmp (skey n) (skey l) with Lt => true | _ => false end.
Definition max_better (n l : JS.number) : bool :=
  match lexcmp (skey n) (skey l) with Gt => true | _ => false end.

(** A list of numbers: no element is NaN. *)
Definition numbers (l : list JS.number) : Prop :=
  Forall (fun v => JS.isNaN v = false) l.

(** Sample records, for the examples below. *)
Definition reading (g : string) : Registro :=
  {| id := g; glicemia := g; data := "05/03/2024"; hora := "08:00";
     timestamp := Some 1709625600000 |}.

(** Three readings in two orders, and a pair of infinite readings. *)
Definition readings_up : list Registro :=
  map reading ["107.3"; "131.4"; "151.3"].
Definition readings_down : list Registro :=
  map reading ["151.3"; "131.4"; "107.3"].
Definition readings_inf : list Registro :=
  map reading ["Infinity"; "-Infinity"].

(* ================================================================== *)
(** ** Dates: calendar arithmetic and a reference [Date] constructor *)
(* ================================================================== *)

(** A calendar date, as an [<input type="date">] holds it. *)
Record CalendarDate := { year : Z; month : Z; day : Z }.

Definition is_leap (y : Z) : bool :=
  (y mod 4 =? 0) && (negb (y mod 100 =? 0) || (y mod 400 =? 0)).

Definition days_in_month (y m : Z) : Z :=
  if m =? 2 then (if is_leap y then 29 else 28)
  else if (m =? 4) || (m =? 6) || (m =? 9) || (m =? 11) then 30
  else 31.

Definition valid_date (d : CalendarDate) : bool :=
  (0 <=? year d) && (year d <=? 9999)
  && (1 <=? month d) && (month d <=? 12)
  && (1 <=? day d) && (day d <=? days_in_month (year d) (month d)).

(** [a] is an earlier day than [b]. *)
Definition date_ltb (a b : CalendarDate) : bool :=
  (year a <? year b)
  || ((year a =? year b)
      && ((month a <? month b) || ((month a =? month b) && (day a <? day b)))).

(** ECMAScript's day number of the first day of a year, and of a date. *)
Definition DayFromYear (y : Z) : Z :=
  365 * (y - 1970) + (y - 1969) / 4 - (y - 1901) / 100 + (y - 1601) / 400.

Fixpoint days_before (y : Z) (months : nat) : Z :=
  match months with
  | O => 0
  | S k => days_before y k + days_in_month y (Z.of_nat (S k))
  end.

Definition MakeDay (y m d : Z) : Z :=
  DayFromYear y + days_before y (Z.to_nat (m - 1)) + (d - 1).

Definition msPerDay : Z := 86400000.

(** The time value of a local date and time in a zone that is [tza]
    milliseconds ahead of UTC. *)
Definition local_time (tza : Z) (d : CalendarDate) (h mi s : Z) : Z :=
  MakeDay (year d) (month d) (day d) * msPerDay
  + h * 3600000 + mi * 60000 + s * 1000 - tza.

(** Fixed-width decimal fields. *)
Definition digit_char (k : Z) : ascii := ascii_of_N (Z.to_N (48 + k)).

Definition pad2 (n : Z) : string :=
  String (digit_char (n / 10)) (String (digit_char (n mod 10)) EmptyString).

Definition pad4 (n : Z) : string :=
  pad2 (n / 100) ++ pad2 (n mod 100).

(** [YYYY-MM-DD], the value of a date input. *)
Definition iso_date (d : CalendarDate) : string :=
  pad4 (year d) ++ "-" ++ pad2 (month d) ++ "-" ++ pad2 (day d).

(** Reading fixed-width fields. *)
Definition read2 (s : string) : option (Z * string) :=
  match s with
  | String a (String b r) =>
      match digit_of a, digit_of b with
      | Some x, Some y => Some (10 * x + y, r)
      | _, _ => None
      end
  | _ => None
  end.

Definition read4 (s : string) : option (Z * string) :=
  match read2 s with
  | Some (hi, r) =>
      match read2 r with
      | Some (lo, r') => Some (100 * hi + lo, r')
      | None => None
      end
  | None => None
  end.

Definition expect (c : ascii) (s : string) : option string :=
  match s with
  | String a r => if Ascii.eqb a c then Some r else None
  | EmptyString => None
  end.

(** A reference [new Date(string)] for the strings that the component
    builds, [YYYY-MM-DDTHH:mm:ss] read as local time in a zone at a fixed
    offset [tza]: the time value when the month is 01 to 12, the day 01 to
    31 and the time a time of day, Invalid Date for any other string. A day
    beyond the length of the month runs into the next month, as V8 reads
    it. *)
Definition Date_local (tza : Z) (s : string) : Date :=
  match read4 s with
  | Some (y, r1) =>
  match expect "-" r1 with Some r2 =>
  match read2 r2 with Some (mo, r3) =>
  match expect "-" r3 with Some r4 =>
  match read2 r4 with Some (d, r5) =>
  match expect "T" r5 with Some r6 =>
  match read2 r6 with Some (h, r7) =>
  match expect ":" r7 with Some r8 =>
  match read2 r8 with Some (mi, r9) =>
  match expect ":" r9 with Some r10 =>
  match read2 r10 with Some (sec, EmptyString) =>
    let date := {| year := y; month := mo; day := d |} in
    if (1 <=? mo) && (mo <=? 12) && (1 <=? d) && (d <=? 31)
       && (((h <=? 23) && (mi <=? 59) && (sec <=? 59))
           || ((h =? 24) && (mi =? 0) && (sec =? 0)))
    then Some (local_time tza date h mi sec)
    else None
  | _ => None end
  | None => None end
  | None => None end
  | None => None end
  | None => None end
  | None => None end
  | None => None end
  | None => None end
  | None => None end
  | None => None end
  | None => None
  end.

(* ================================================================== *)
(** ** The document store as the component uses it *)
(* ================================================================== *)

(** A stored document: the collection it is in, its identifier, its fields. *)
Record Stored := { s_path : string; s_id : string; s_doc : Doc }.

Definition Store := list Stored.

Inductive WhereOp := op_ge | op_le.
Inductive Direction := asc | desc.

(** [where(field, op, value)], [orderBy(field, direction)], [limit(n)]. *)
Inductive QueryConstraint :=
  | where_ (field : string) (op : WhereOp) (v : Timestamp)
  | orderBy (field : string) (dir : Direction)
  | limit (n : nat).

(** [query(collection(db, path), ...constraints)] *)
Record Query := { q_path : string; q_constraints : list QueryConstraint }.

(** [{ id: doc.id, ...doc.data() }] *)
Definition to_registro (d : Stored) : Registro :=
  {| id := s_id d;
     glicemia := doc_glicemia (s_doc d);
     data := doc_data (s_doc d);
     hora := doc_hora (s_doc d);
     timestamp := doc_timestamp (s_doc d) |}.

(** *** Evaluation of a query by the store

    A [where] on the timestamp field keeps the documents whose timestamp
    compares as asked with the bound; a bound that is no instant compares as
    equal to every timestamp and so keeps them all. A document without an
    instant, or a [where] on a field that holds no timestamp, matches
    nothing. *)
Definition satisfies (c : QueryConstraint) (d : Stored) : bool :=
  match c with
  | where_ f op bound =>
      if String.eqb f "timestamp" then
        match doc_timestamp (s_doc d), bound with
        | Some t, Some b => match op with op_ge => b <=? t | op_le => t <=? b end
        | Some _, None => true
        | None, _ => false
        end
      else false
  | _ => true
  end.

(** [a] comes no later than [b] in a descending listing: the later
    timestamp first, equal timestamps by descending identifier. *)
Definition desc_before (a b : Stored) : bool :=
  match doc_timestamp (s_doc a), doc_timestamp (s_doc b) with
  | Some ta, Some tb =>
      (tb <? ta) || ((ta =? tb) &&
        match String.compare (s_id a) (s_id b) with Lt => false | _ => true end)
  | Some _, None => true
  | None, Some _ => false
  | None, None =>
      match String.compare (s_id a) (s_id b) with Lt => false | _ => true end
  end.

Definition before (dir : Direction) (a b : Stored) : bool :=
  match dir with desc => desc_before a b | asc => desc_before b a end.

Fixpoint insert_sorted (le : Stored -> Stored -> bool) (x : Stored)
    (l : list Stored) : list Stored :=
  match l with
  | [] => [x]
  | y :: r => if le x y then x :: l else y :: insert_sorted le x r
  end.

Fixpoint sort_by (le : Stored -> Stored -> bool) (l : list Stored) : list Stored :=
  match l with
  | [] => []
  | x :: r => insert_sorted le x (sort_by le r)
  end.

(** The direction of the (last) [orderBy] on the timestamp, the smallest
    [limit]. *)
Fixpoint order_of (cs : list QueryConstraint) : option Direction :=
  match cs with
  | [] => None
  | orderBy _ dir :: r => match order_of r with Some d => Some d | None => Some dir end
  | _ :: r => order_of r
  end.

Fixpoint limit_of (cs : list QueryConstraint) : option nat :=
  match cs with
  | [] => None
  | limit n :: r => match limit_of r with Some m => Some (Nat.min n m) | None => Some n end
  | _ :: r => limit_of r
  end.

Definition matching (q : Query) (store : Store) : list Stored :=
  filter (fun d => String.eqb (s_path d) (q_path q)
                   && forallb (fun c => satisfies c d) (q_constraints q)) store.

(** The documents of a snapshot of [q]. *)
Definition run_query (q : Query) (store : Store) : list Stored :=
  let found := matching q store in
  let ordered :=
    match order_of (q_constraints q) with
    | Some dir => sort_by (before dir) found
    | None => sort_by (before asc) found
    end in
  match limit_of (q_constraints q) with
  | Some n => firstn n ordered
  | None => ordered
  end.

(** The outcome of the awaited [addDoc] call: the promise resolves with the
    reference of the new document, or the call fails with an error, which
    the [catch] clause of the caller receives. *)
Inductive AddDocReply :=
  | Resolved (new_id : string)
  | Rejected (message : string).

(* ================================================================== *)
(** ** [GlicemiaTracker]: saving a record and listening to the history *)
(* ================================================================== *)

(** [{ type, text }], with [type: null] when no message is shown. *)
Record Message := { msg_type : option string; msg_text : string }.

(** The form state that [handleSave] reads and writes. *)
Record Form := {
  f_glicemia : string;
  f_data : string;
  f_hora : string;
  f_loadingSave : bool;
  f_saveMessage : Message
}.

(** [s.split(sep)] for a one-character separator. *)
Fixpoint split (sep : ascii) (s : string) : list string :=
  match s with
  | EmptyString => [EmptyString]
  | String c r =>
      if Ascii.eqb c sep then EmptyString :: split sep r
      else match split sep r with
           | w :: ws => String c w :: ws
           | [] => [String c EmptyString]
           end
  end.

(** [parts.join(sep)] *)
Fixpoint join (sep : string) (parts : list string) : string :=
  match parts with
  | [] => EmptyString
  | [w] => w
  | w :: ws => w ++ sep ++ join sep ws
  end.

Definition invalid_value_message : Message :=
  {| msg_type := Some "error";
     msg_text := "Por favor, insira um valor de glicemia válido." |}.

Definition invalid_datetime_message : Message :=
  {| msg_type := Some "error"; msg_text := "Data ou hora inválida." |}.

(** The outcome of the history effect: nothing is done, a listener is
    attached to a query, or building the query throws. *)
Inductive Subscription :=
  | NotSubscribed
  | Subscribed (q : Query)
  | EffectThrows (message : string).

Section Host.
(** The application identifier of the environment, and the engine's
    [new Date(string)]. *)
Variable appId : string.
Variable newDate : string -> Date.

Definition GLICEMIA_COLLECTION (userId : string) : string :=
  "artifacts/" ++ appId ++ "/users/" ++ userId ++ "/glicemia_records".

(** [handleSave], from the submit event to the end of the handler: the
    form state and the store it leaves. [reply] is what the store answers
    if [addDoc] is called; an error thrown while the document is built goes
    to the same [catch] clause before any call. The message is cleared four
    seconds later by a timer, which is outside this function. *)
Definition handleSave (userId : string) (st : Form) (reply : AddDocReply)
    (store : Store) : Form * Store :=
  let glicemia := f_glicemia st in
  let data := f_data st in
  let hora := f_hora st in
  let glicemiaValue := parseFloat glicemia in
  if JS.isNaN glicemiaValue || (glicemiaValue <=? n0)%js then
    ({| f_glicemia := glicemia; f_data := data; f_hora := hora;
        f_loadingSave := false;
        f_saveMessage := invalid_value_message |}, store)
  else
    let dateString := data ++ "T" ++ hora ++ ":00" in
    let recordDate := newDate dateString in
    match recordDate with
    | None =>
        ({| f_glicemia := glicemia; f_data := data; f_hora := hora;
            f_loadingSave := false;
            f_saveMessage := invalid_datetime_message |}, store)
    | Some _ =>
        match Timestamp_fromDate recordDate with
        | inl instant =>
            let fields :=
              {| doc_glicemia := glicemia;
                 doc_data := join "/" (rev (split "-" data));
                 doc_hora := hora;
                 doc_timestamp := instant |} in
            match reply with
            | Resolved new_id =>
                ({| f_glicemia := ""; f_data := data; f_hora := hora;
                    f_loadingSave := false;
                    f_saveMessage :=
                      {| msg_type := Some "success";
                         msg_text := "Registro de " ++ glicemia
                                     ++ " mg/dL salvo com sucesso!" |} |},
                 (store ++ [ {| s_path := GLICEMIA_COLLECTION userId;
                                s_id := new_id; s_doc := fields |} ])%list)
            | Rejected message =>
                ({| f_glicemia := glicemia; f_data := data; f_hora := hora;
                    f_loadingSave := false;
                    f_saveMessage :=
                      {| msg_type := Some "error";
                         msg_text := "Erro ao salvar: " ++ message |} |},
                 store)
            end
        | inr message =>
            ({| f_glicemia := glicemia; f_data := data; f_hora := hora;
                f_loadingSave := false;
                f_saveMessage :=
                  {| msg_type := Some "error";
                     msg_text := "Erro ao salvar: " ++ message |} |},
             store)
        end
    end.

(** The two instants of the history effect. *)
Definition window (dataInicio dataFim : string) : Date * Date :=
  (newDate (dataInicio ++ "T00:00:00"), newDate (dataFim ++ "T23:59:59")).

(** The history effect: which query the listener is attached to.
    [db] tells whether the database handle is set; an empty [userId] is
    falsy. *)
Definition history_effect (db : bool) (userId : string)
    (dataInicio dataFim : string) : Subscription :=
  if negb db || String.eqb userId "" then NotSubscribed
  else
    let '(startOfDay, endOfDay) := window dataInicio dataFim in
    match Timestamp_fromDate startOfDay with
    | inr message => EffectThrows message
    | inl lower =>
        match Timestamp_fromDate endOfDay with
        | inr message => EffectThrows message
        | inl upper =>
            Subscribed
              {| q_path := GLICEMIA_COLLECTION userId;
                 q_constraints :=
                   [ where_ "timestamp" op_ge lower;
                     where_ "timestamp" op_le upper;
                     orderBy "timestamp" desc;
                     limit 100 ] |}
        end
    end.

(** The snapshot callback: the records that [setRegistros] receives. *)
Definition fetchedRecords (docs : list Stored) : list Registro :=
  map to_registro docs.

(** The records shown for a store content: those of the first snapshot of
    the effect's query, if the effect listens. *)
Definition history (db : bool) (userId : string)
    (dataInicio dataFim : string) (store : Store) : option (list Registro) :=
  match history_effect db userId dataInicio dataFim with
  | Subscribed q => Some (fetchedRecords (run_query q store))
  | _ => None
  end.
End Host.

(** A timestamp that lies in the closed interval from [s] to [e]. *)
Definition within (s e : Z) (t : Timestamp) : Prop :=
  exists z, t = Some z /\ s <= z <= e.

(** [a] was observed no earlier than [b]. *)
Definition no_earlier (a b : Registro) : Prop :=
  match timestamp a, timestamp b with
  | Some ta, Some tb => tb <= ta
  | _, _ => False
  end.

(** The documents of a collection whose timestamp lies in a window. *)
Definition in_window (path : string) (s e : Z) (d : Stored) : bool :=
  String.eqb (s_path d) path
  && match doc_timestamp (s_doc d) with
     | Some t => (s <=? t) && (t <=? e)
     | None => false
     end.

(** A store with three documents of one owner and one of another. *)
Definition sample_store : Store :=
  [ {| s_path := "artifacts/glico/users/u1/glicemia_records"; s_id := "a";
       s_doc := {| doc_glicemia := "98"; doc_data := "05/03/2024";
                   doc_hora := "08:00"; doc_timestamp := Some 1709625600000 |} |};
    {| s_path := "artifacts/glico/users/u1/glicemia_records"; s_id := "b";
       s_doc := {| doc_glicemia := "141"; doc_data := "05/03/2024";
                   doc_hora := "13:30"; doc_timestamp := Some 1709645400000 |} |};
    {| s_path := "artifacts/glico/users/u1/glicemia_records"; s_id := "c";
       s_doc := {| doc_glicemia := "110"; doc_data := "06/03/2024";
                   doc_hora := "07:45"; doc_timestamp := Some 1709711100000 |} |};
    {| s_path := "artifacts/glico/users/u2/glicemia_records"; s_id := "d";
       s_doc := {| doc_glicemia := "77"; doc_data := "05/03/2024";
                   doc_hora := "09:00"; doc_timestamp := Some 1709629200000 |} |} ].

(* ================================================================== *)
(** ** Rounding to a number of decimals *)
(* ================================================================== *)

(** The nearest integer to a rational, the upper one of two. *)
Definition round_half_up (q : Q) : Z := Qfloor (q + (1 # 2)).

(** The absolute value of a finite number, and the sign that [toFixed]
    writes for it. *)
Definition magnitude (x : JS.number) : Q := toQ (SFabs x).

Definition sign_prefix (x : JS.number) : string :=
  match x with
  | S754_finite true _ _ => "-"
  | _ => ""
  end.

(* ================================================================== *)
(** ** Whole readings *)
(* ================================================================== *)

(** The number of a positive integer below [2^53], in canonical form: the
    integer shifted up to a 53-bit mantissa. *)
Definition normal (p : positive) : JS.number :=
  let d := Z.pos (digits2_pos p) in
  S754_finite false (Z.to_pos (Z.pos p * 2 ^ (53 - d))) (d - 53).

Definition total (ks : list Z) : Z := fold_right Z.add 0 ks.

(** Values that are the numbers of non-negative integers with a total
    below [2^53]. *)
Definition whole_readings (values : list JS.number) : Prop :=
  exists ks : list Z,
    values = map JS.of_Z ks /\ Forall (fun k => 0 <= k) ks /\ total ks < 2 ^ 53.

(** A form filled in with a value, a date and a time. *)
Definition form (glicemia data hora : string) : Form :=
  {| f_glicemia := glicemia; f_data := data; f_hora := hora;
     f_loadingSave := true;
     f_saveMessage := {| msg_type := None; msg_text := "" |} |}.

(* ================================================================== *)
(** ** Authentication: error messages and saved credentials *)
(* ================================================================== *)

(** [getErrorMessage(errorCode)]; [None] is an error without a code. *)
Definition getErrorMessage (errorCode : option string) : string :=
  match errorCode with
  | Some code =>
      if String.eqb code "auth/invalid-email" then
        "O formato do e-mail é inválido."
      else if String.eqb code "auth/user-disabled" then
        "Esta conta de usuário foi desativada."
      else if String.eqb code "auth/user-not-found" then
        "Nenhum usuário encontrado com este e-mail."
      else if String.eqb code "auth/wrong-password"
              || String.eqb code "auth/invalid-credential" then
        "A senha está incorreta."
      else if String.eqb code "auth/email-already-in-use" then
        "Este e-mail já está em uso."
      else if String.eqb code "auth/weak-password" then
        "A senha deve ter pelo menos 6 caracteres."
      else "Ocorreu um erro desconhecido. Por favor, tente novamente."
  | None => "Ocorreu um erro desconhecido. Por favor, tente novamente."
  end.

(** [localStorage]: what [getItem] returns for each key, [None] for null. *)
Definition Storage := string -> option string.

Definition getItem (ls : Storage) (key : string) : option string := ls key.

Definition setItem (key value : string) (ls : Storage) : Storage :=
  fun k => if String.eqb k key then Some value else ls k.

Definition removeItem (key : string) (ls : Storage) : Storage :=
  fun k => if String.eqb k key then None else ls k.

Definition no_storage : Storage := fun _ => None.

(** Truthiness of a string or null: null and the empty string are falsy. *)
Definition truthy (v : option string) : bool :=
  match v with
  | Some s => negb (String.eqb s "")
  | None => false
  end.

(** The state of the [Login] form. *)
Record LoginForm := {
  l_email : string;
  l_password : string;
  l_rememberMe : bool;
  l_loading : bool;
  l_error : string
}.

Definition initial_login : LoginForm :=
  {| l_email := ""; l_password := ""; l_rememberMe := false;
     l_loading := false; l_error := "" |}.

(** The mount effect of [Login]: saved credentials are loaded. *)
Definition load_saved (ls : Storage) (st : LoginForm) : LoginForm :=
  let savedEmail := getItem ls "glico_auth_email" in
  let savedPassword := getItem ls "glico_auth_password" in
  {| l_email := match savedEmail with
                | Some e => if truthy savedEmail then e else l_email st
                | None => l_email st
                end;
     l_password := match savedPassword with
                   | Some p => if truthy savedPassword then p else l_password st
                   | None => l_password st
                   end;
     l_rememberMe := truthy savedEmail;
     l_loading := l_loading st;
     l_error := l_error st |}.

(** The outcome of an awaited call of the account service: it succeeds, or
    fails with an error that may carry a code. *)
Inductive AuthReply :=
  | AuthOk
  | AuthError (code : option string).

(** [handleLogin], from the submit event to the end of the handler. *)
Definition handleLogin (st : LoginForm) (reply : AuthReply) (ls : Storage)
    : LoginForm * Storage :=
  let ls' :=
    if l_rememberMe st then
      setItem "glico_auth_password" (l_password st)
        (setItem "glico_auth_email" (l_email st) ls)
    else
      removeItem "glico_auth_password" (removeItem "glico_auth_email" ls) in
  ({| l_email := l_email st; l_password := l_password st;
      l_rememberMe := l_rememberMe st;
      l_loading := false;
      l_error := match reply with
                 | AuthOk => ""
                 | AuthError code => getErrorMessage code
                 end |}, ls').

(** The state of the [Register] form. *)
Record RegisterForm := {
  r_email : string;
  r_password : string;
  r_loading : bool;
  r_error : string;
  r_success : string
}.

(** [handleRegister], from the submit event to the end of the handler. *)
Definition handleRegister (st : RegisterForm) (reply : AuthReply) : RegisterForm :=
  {| r_email := r_email st; r_password := r_password st;
     r_loading := false;
     r_error := match reply with
                | AuthOk => ""
                | AuthError code => getErrorMessage code
                end;
     r_success := match reply with
                  | AuthOk =>
                      "Cadastro realizado com sucesso! Você será logado automaticamente."
                  | AuthError _ => ""
                  end |}.

(* ================================================================== *)
(** ** [useFirebaseAuth] and [App] *)
(* ================================================================== *)

(** The state of the hook: the signed-in user's identifier, the loading
    flag, whether the database and the account handles are set, and
    whether the listener of the account service is attached. *)
Record AuthHook := {
  h_user : option string;
  h_loading : bool;
  h_db : bool;
  h_auth : bool;
  h_listening : bool
}.





(** [handleSignOut]: [ok] tells whether [signOut] succeeds. *)
Definition handleSignOut (ok : bool) (h : AuthHook) (ls : Storage)
    : AuthHook * Storage :=
  if h_auth h && ok then
    ({| h_user := None; h_loading := h_loading h; h_db := h_db h;
        h_auth := h_auth h; h_listening := h_listening h |},
     removeItem "glico_auth_password" (removeItem "glico_auth_email" ls))
  else (h, ls).



(** The effect of [App] that follows the authentication state. *)
Definition follow_auth (h : AuthHook) (view : string) : string :=
  if h_loading h then view
  else match h_user h with Some _ => "tracker" | None => "login" end.


(* ================================================================== *)
(** ** The summary panel of [GlicemiaTracker] *)
(* ================================================================== *)

(** [s.replace(pattern, replacement)] for a string pattern and a replacement
    without [$]: the first occurrence is replaced. *)
Fixpoint replace (pattern replacement s : string) : string :=
  if String.prefix pattern s then
    replacement ++ String.substring (String.length pattern)
                     (String.length s - String.length pattern) s
  else match s with
       | String c r => String c (replace pattern replacement r)
       | EmptyString => EmptyString
       end.

(** What the panel below the date filter shows. *)
Inductive Panel :=
  | PanelLoading
  | PanelValues (className : string) (avg min max : value)
  | PanelNoRecords.

(** The conditional of the panel; [None] is the TypeError of calling
    [replace] on an undefined colour. *)
Definition summary_panel (loadingRecords : bool) (s : Stats) : option Panel :=
  if loadingRecords then Some PanelLoading
  else if (0 <? count s)%nat then
    match color s with
    | Some c =>
        Some (PanelValues ("text-right font-bold " ++ replace "bg-" "text-" c)
                (avg s) (min s) (max s))
    | None => None
    end
  else Some PanelNoRecords.

(** A reading that [handleSave] accepts: it parses to a number above 0. *)
Definition accepted (glicemia : string) : bool :=
  negb (JS.isNaN (parseFloat glicemia) || (parseFloat glicemia <=? n0)%js).

(** A number that is zero, positive or plus infinity. *)
Definition nonneg (x : JS.number) : bool :=
  match x with
  | S754_zero _ | S754_finite false _ _ | S754_infinity false => true
  | _ => false
  end.

Section SavedStores.
Variable appId : string.
Variable newDate : string -> Date.

(** The stores that come from the empty store by calls of [handleSave]. *)
Inductive saved_store : Store -> Prop :=
  | saved_empty : saved_store []
  | saved_step (userId : string) (st : Form) (reply : AddDocReply) (store : Store) :
      saved_store store ->
      saved_store (snd (handleSave appId newDate userId st reply store)).
End SavedStores.

(** The reference [new Date(string)] in a zone whose offset changes once,
    from [before] to a larger [after] at the instant [change]: a local time
    that the change skips is read with the offset before it. *)
Definition Date_transition (before after change : Z) (s : string) : Date :=
  match Date_local 0 s with
  | Some local =>
      Some (if local <? change + after then local - before else local - after)
  | None => None
  end.

(** America/Nuuk in March 2024: two hours behind UTC until
    2024-03-31T01:00:00Z, one hour behind from then on, so that the clock
    goes from 23:00 on the 30th to 00:00 on the 31st. *)
Definition Date_Nuuk_2024 : string -> Date :=
  Date_transition (-7200000) (-3600000) 1711846800000.



(* ================================================================== *)
(** * Properties *)
(* ================================================================== *)

(** ** Comparison of numbers *)

Lemma lexcmp_Lt (a1 a2 a3 b1 b2 b3 : Z) :
  lexcmp (a1, a2, a3) (b1, b2, b3) = Lt <->
  a1 < b1 \/ (a1 = b1 /\ (a2 < b2 \/ (a2 = b2 /\ a3 < b3))).
Proof.
  unfold lexcmp.
  destruct (Z.compare_spec a1 b1); destruct (Z.compare_spec a2 b2);
    destruct (Z.compare_spec a3 b3); split; intros; try discriminate;
    try reflexivity; try lia.
Qed.

Lemma lexcmp_Eq (a1 a2 a3 b1 b2 b3 : Z) :
  lexcmp (a1, a2, a3) (b1, b2, b3) = Eq <-> a1 = b1 /\ a2 = b2 /\ a3 = b3.
Proof.
  unfold lexcmp.
  destruct (Z.compare_spec a1 b1); destruct (Z.compare_spec a2 b2);
    destruct (Z.compare_spec a3 b3); split; intros; try discriminate;
    try reflexivity; try lia.
Qed.

Lemma lexcmp_Gt (a1 a2 a3 b1 b2 b3 : Z) :
  lexcmp (a1, a2, a3) (b1, b2, b3) = Gt <->
  b1 < a1 \/ (a1 = b1 /\ (b2 < a2 \/ (a2 = b2 /\ b3 < a3))).
Proof.
  unfold lexcmp.
  destruct (Z.compare_spec a1 b1); destruct (Z.compare_spec a2 b2);
    destruct (Z.compare_spec a3 b3); split; intros; try discriminate;
    try reflexivity; try lia.
Qed.

Lemma SFcompare_key (x y : JS.number) :
  JS.isNaN x = false -> JS.isNaN y = false ->
  SFcompare x y = Some (lexcmp (key x) (key y)).
Proof.
  destruct x as [sx|sx| |sx mx ex], y as [sy|sy| |sy my ey];
    try discriminate; intros _ _;
    try (destruct sx); try (destruct sy); try reflexivity.
  simpl. f_equal. rewrite Z.compare_opp.
  change (PosDef.Pos.compare_cont Eq mx my) with (Pos.compare mx my).
  rewrite (Z.compare_antisym ex ey).
  destruct (ex ?= ey); reflexivity.
Qed.

Lemma lexcmp_antisym (a b : Z * Z * Z) : lexcmp b a = CompOpp (lexcmp a b).
Proof.
  destruct a as [[a1 a2] a3], b as [[b1 b2] b3]. unfold lexcmp.
  rewrite (Z.compare_antisym a1 b1), (Z.compare_antisym a2 b2),
    (Z.compare_antisym a3 b3).
  destruct (a1 ?= b1), (a2 ?= b2), (a3 ?= b3); reflexivity.
Qed.

Section CompareByKey.
Variables x y : JS.number.
Hypothesis Hx : JS.isNaN x = false.
Hypothesis Hy : JS.isNaN y = false.

Lemma lt_key :
  (x <? y)%js = match lexcmp (key x) (key y) with Lt => true | _ => false end.
Proof.
  unfold JS.lt, SFltb. rewrite (SFcompare_key x y Hx Hy). reflexivity.
Qed.

Lemma le_key :
  (x <=? y)%js = match lexcmp (key x) (key y) with Gt => false | _ => true end.
Proof.
  unfold JS.le, SFleb. rewrite (SFcompare_key x y Hx Hy).
  destruct (lexcmp (key x) (key y)); reflexivity.
Qed.

Lemma gt_key :
  (x >? y)%js = match lexcmp (key x) (key y) with Gt => true | _ => false end.
Proof.
  unfold JS.gt, SFltb. rewrite (SFcompare_key y x Hy Hx), lexcmp_antisym.
  destruct (lexcmp (key x) (key y)); reflexivity.
Qed.

Lemma ge_key :
  (x >=? y)%js = match lexcmp (key x) (key y) with Lt => false | _ => true end.
Proof.
  unfold JS.ge, SFleb. rewrite (SFcompare_key y x Hy Hx), lexcmp_antisym.
  destruct (lexcmp (key x) (key y)); reflexivity.
Qed.
End CompareByKey.

(** Every comparison with NaN is false. *)
Lemma NaN_compare (y : JS.number) :
  (JS.NaN <? y)%js = false /\ (JS.NaN <=? y)%js = false /\
  (JS.NaN >? y)%js = false /\ (JS.NaN >=? y)%js = false.
Proof. destruct y as [[]|[]| |[] ? ?]; repeat split; reflexivity. Qed.

(** Rewrites the comparisons of [v] with other numbers into comparisons of
    the components of their keys, and splits on each of them. *)
Ltac by_key v Hv :=
  repeat match goal with
  | |- context [JS.lt v ?c] => rewrite (lt_key v c Hv eq_refl)
  | |- context [JS.le v ?c] => rewrite (le_key v c Hv eq_refl)
  | |- context [JS.gt v ?c] => rewrite (gt_key v c Hv eq_refl)
  | |- context [JS.ge v ?c] => rewrite (ge_key v c Hv eq_refl)
  end;
  cbn [key n70 n130 n180];
  let a := fresh "a" in let b := fresh "b" in let c := fresh "c" in
  destruct (key v) as [[a b] c]; unfold lexcmp;
  repeat match goal with
  | |- context [Z.compare ?p ?q] => destruct (Z.compare_spec p q)
  end;
  try reflexivity; try lia.

(** ** The row classifier and the summary classifier *)

Lemma style_of_status (v : JS.number) :
  JS.isNaN v = false ->
  band_of_style (style_of v) = band_of_status (fst (status_color v)).
Proof.
  intros Hv. unfold style_of, status_color. by_key v Hv.
Qed.

Lemma style_of_in_band (v : JS.number) (b : StatusBand) :
  JS.isNaN v = false ->
  band_of_style (style_of v) = Some b <-> in_band b v = true.
Proof.
  intros Hv. unfold style_of.
  destruct b; unfold in_band; by_key v Hv;
    split; intros; try discriminate; try lia; reflexivity.
Qed.

Lemma style_of_band_total (v : JS.number) :
  exists b, band_of_style (style_of v) = Some b.
Proof.
  unfold style_of.
  destruct (v <? n70)%js; [eexists; reflexivity|].
  destruct (v <=? n130)%js; [eexists; reflexivity|].
  destruct (v <=? n180)%js; eexists; reflexivity.
Qed.

(** ** The summary of an empty list and of a list without numbers *)

Lemma parsed_values_none (registros : list Registro) :
  (forall r, In r registros -> JS.isNaN (parseFloat (glicemia r)) = true) ->
  parsed_values registros = [].
Proof.
  unfold parsed_values. induction registros as [|r rs IH]; intros H.
  - reflexivity.
  - simpl. rewrite (H r (or_introl eq_refl)). simpl.
    apply IH. intros r' Hr'. apply H. now right.
Qed.

(** C5. The summary of the empty record list has count 0, average 0, minimum
    0, maximum 0 and the status 'info', which names none of the four
    clinical bands (and differs from the default 'normal'). *)
Theorem stats_empty :
  stats [] = {| avg := VNum n0; count := 0; min := VNum n0; max := VNum n0;
                status := "info"; color := None |}
  /\ band_of_status (status (stats [])) = None
  /\ status (stats []) <> "normal".
Proof.
  repeat split. discriminate.
Qed.

(** C10. For a non-empty record list none of whose values parses as a
    number, the list of parsed values is empty, the count is 0, the average is
    the quotient 0/0 = NaN, the minimum and maximum are those of no arguments
    (Infinity and -Infinity), the average passes none of the four threshold
    tests, and the summary carries the default status 'normal' rather than
    the no-data status 'info'. *)
Theorem stats_no_number (registros : list Registro) :
  registros <> [] ->
  (forall r, In r registros -> JS.isNaN (parseFloat (glicemia r)) = true) ->
  parsed_values registros = []
  /\ average (parsed_values registros) = JS.NaN
  /\ Math_min (parsed_values registros) = JS.Infinity
  /\ Math_max (parsed_values registros) = JS.NegInfinity
  /\ (forall b, in_band b (average (parsed_values registros)) = false)
  /\ stats registros =
       {| avg := VStr "NaN"; count := 0;
          min := VStr "Infinity"; max := VStr "-Infinity";
          status := "normal"; color := Some "bg-green-500" |}
  /\ status (stats registros) <> "info".
Proof.
  intros Hne Hall.
  pose proof (parsed_values_none registros Hall) as Hp.
  assert (Hstats : stats registros =
       {| avg := VStr "NaN"; count := 0;
          min := VStr "Infinity"; max := VStr "-Infinity";
          status := "normal"; color := Some "bg-green-500" |}).
  { unfold stats. destruct registros as [|r rs]; [contradiction|].
    cbn [List.length Nat.eqb]. rewrite Hp. reflexivity. }
  rewrite Hstats, Hp. repeat split; try reflexivity.
  - intros b. destruct b; reflexivity.
  - discriminate.
Qed.

Lemma stats_no_number_witness :
  stats [ {| id := "a1"; glicemia := "abc"; data := "01/02/2024";
             hora := "10:00"; timestamp := Some 0 |} ] =
    {| avg := VStr "NaN"; count := 0;
       min := VStr "Infinity"; max := VStr "-Infinity";
       status := "normal"; color := Some "bg-green-500" |}.
Proof.
  refine (proj1 (proj2 (proj2 (proj2 (proj2 (proj2
    (stats_no_number _ _ _))))))).
  - discriminate.
  - intros r [<-|[]]. reflexivity.
Defined.

(** ** The two classification paths *)

(** C6. On every number (every value other than NaN) the status that the
    summary derives from an average and the style that a table row derives
    from a reading name the same band, one of the four. *)
Theorem batch_and_row_classifiers_agree (v : JS.number) :
  JS.isNaN v = false ->
  exists b : StatusBand,
    band_of_status (fst (status_color v)) = Some b
    /\ band_of_style (style_of v) = Some b.
Proof.
  intros Hv. destruct (style_of_band_total v) as [b Hb].
  exists b. split; [|exact Hb].
  rewrite <- (style_of_status v Hv). exact Hb.
Qed.

Lemma batch_and_row_classifiers_agree_witness :
  exists b : StatusBand,
    band_of_status (fst (status_color (parseFloat "130.01"))) = Some b
    /\ band_of_style (getGlicemiaStyle "130.01") = Some b.
Proof.
  apply (batch_and_row_classifiers_agree (parseFloat "130.01")).
  reflexivity.
Defined.

Lemma digits2_bounds (m : positive) :
  2 ^ (Z.pos (digits2_pos m) - 1) <= Z.pos m < 2 ^ Z.pos (digits2_pos m).
Proof.
  induction m as [m IH|m IH|]; simpl digits2_pos.
  - rewrite Pos2Z.inj_succ.
    replace (Z.succ (Z.pos (digits2_pos m)) - 1) with (Z.succ (Z.pos (digits2_pos m) - 1)) by lia.
    rewrite !Z.pow_succ_r by lia. lia.
  - rewrite Pos2Z.inj_succ.
    replace (Z.succ (Z.pos (digits2_pos m)) - 1) with (Z.succ (Z.pos (digits2_pos m) - 1)) by lia.
    rewrite !Z.pow_succ_r by lia. lia.
  - simpl. lia.
Qed.

Lemma valid_bounds (s : bool) (m : positive) (e : Z) :
  JS.valid (S754_finite s m e) = true ->
  -1074 <= e <= 971 /\ Z.pos m < 2 ^ 53 /\ (-1074 < e -> 2 ^ 52 <= Z.pos m).
Proof.
  unfold JS.valid, valid_binary, bounded, canonical_mantissa, fexp, emin, JS.prec, JS.emax.
  intros H. apply andb_prop in H. destruct H as [H1 H2].
  apply Z.eqb_eq in H1. apply Z.leb_le in H2.
  pose proof (digits2_bounds m) as Hd.
  set (d := Z.pos (digits2_pos m)) in *.
  assert (0 < d) by (unfold d; lia).
  destruct (Z.max_spec (d + e - 53) (3 - 1024 - 53)) as [[Hlt Hmax]|[Hle Hmax]];
    rewrite Hmax in H1.
  - split; [lia|]. split; [|lia].
    apply Z.lt_le_trans with (2 ^ d); [lia|].
    apply Z.pow_le_mono_r; lia.
  - assert (d = 53) by lia. subst d. rewrite H0 in Hd.
    change (53 - 1) with 52 in Hd. split; [lia|]. split; [lia|]. lia.
Qed.

Lemma pow2_pos (k : Z) : 0 <= k -> 0 < 2 ^ k.
Proof. intros. apply Z.pow_pos_nonneg; lia. Qed.

Lemma pow2_split (a b : Z) : 0 <= a -> a < b -> exists t, 2 <= t /\ 2 ^ b = 2 ^ a * t.
Proof.
  intros Ha Hab. exists (2 ^ (b - a)). split.
  - change 2 with (2 ^ 1) at 1. apply Z.pow_le_mono_r; lia.
  - rewrite <- Z.pow_add_r by lia. f_equal. lia.
Qed.

(** On well-formed finite numbers the order of the keys is the order of
    the values. *)
Lemma key_scaled (x y : JS.number) :
  JS.is_finite x = true -> JS.is_finite y = true ->
  JS.valid x = true -> JS.valid y = true ->
  lexcmp (key x) (key y) = (scaled x ?= scaled y).
Proof.
  intros Fx Fy Vx Vy.
  destruct x as [sx|sx| |sx mx ex]; try discriminate;
  destruct y as [sy|sy| |sy my ey]; try discriminate.
  - reflexivity.
  - apply valid_bounds in Vy. destruct Vy as (He & _ & _).
    pose proof (pow2_pos (ey + 1074) ltac:(lia)).
    symmetry. destruct sy; cbn [key scaled lexcmp].
    + apply Z.compare_gt_iff. nia.
    + apply Z.compare_lt_iff. nia.
  - apply valid_bounds in Vx. destruct Vx as (He & _ & _).
    pose proof (pow2_pos (ex + 1074) ltac:(lia)).
    symmetry. destruct sx; cbn [key scaled lexcmp].
    + apply Z.compare_lt_iff. nia.
    + apply Z.compare_gt_iff. nia.
  - apply valid_bounds in Vx, Vy.
    destruct Vx as (Hex & Hmx & Hnx), Vy as (Hey & Hmy & Hny).
    pose proof (pow2_pos (ex + 1074) ltac:(lia)) as Px.
    pose proof (pow2_pos (ey + 1074) ltac:(lia)) as Py.
    assert (Hlt : forall m1 e1 m2 e2, -1074 <= e1 -> e1 < e2 ->
              0 < m1 < 2 ^ 53 -> 2 ^ 52 <= m2 ->
              m1 * 2 ^ (e1 + 1074) < m2 * 2 ^ (e2 + 1074)).
    { intros m1 e1 m2 e2 H1 H2 H3 H4.
      destruct (pow2_split (e1 + 1074) (e2 + 1074)) as (t & Ht & ->); try lia.
      pose proof (pow2_pos (e1 + 1074) ltac:(lia)).
      assert (Hm : m1 < m2 * t).
      { apply Z.lt_le_trans with (2 ^ 52 * 2); [exact (proj2 H3)|].
        apply Z.mul_le_mono_nonneg; lia. }
      replace (m2 * (2 ^ (e1 + 1074) * t)) with (m2 * t * 2 ^ (e1 + 1074)) by ring.
      apply Z.mul_lt_mono_pos_r; assumption. }
    symmetry.
    destruct sx, sy; cbn [key scaled]; unfold lexcmp;
      change (-1 ?= -1) with Eq; change (1 ?= 1) with Eq;
      change (-1 ?= 1) with Lt; change (1 ?= -1) with Gt; cbv iota.
    + destruct (Z.compare_spec (- ex) (- ey)).
      * assert (ex = ey) by lia. subst ey.
        destruct (Z.compare_spec (- Z.pos mx) (- Z.pos my)).
        -- apply Z.compare_eq_iff. nia.
        -- apply Z.compare_lt_iff. nia.
        -- apply Z.compare_gt_iff. nia.
      * apply Z.compare_lt_iff.
        pose proof (Hlt (Z.pos my) ey (Z.pos mx) ex). lia.
      * apply Z.compare_gt_iff.
        pose proof (Hlt (Z.pos mx) ex (Z.pos my) ey). lia.
    + apply Z.compare_lt_iff. nia.
    + apply Z.compare_gt_iff. nia.
    + destruct (Z.compare_spec ex ey).
      * subst ey.
        destruct (Z.compare_spec (Z.pos mx) (Z.pos my)).
        -- apply Z.compare_eq_iff. nia.
        -- apply Z.compare_lt_iff. nia.
        -- apply Z.compare_gt_iff. nia.
      * apply Z.compare_lt_iff.
        pose proof (Hlt (Z.pos mx) ex (Z.pos my) ey). lia.
      * apply Z.compare_gt_iff.
        pose proof (Hlt (Z.pos my) ey (Z.pos mx) ex). lia.
Qed.

Lemma toQ_scaled (x : JS.number) :
  JS.is_finite x = true -> JS.valid x = true ->
  (toQ x * inject_Z (2 ^ 1074) == inject_Z (scaled x))%Q.
Proof.
  intros Fx Vx. destruct x as [sx|sx| |sx mx ex]; try discriminate.
  - reflexivity.
  - apply valid_bounds in Vx. destruct Vx as (He & _ & _).
    cbn [toQ scaled].
    rewrite !inject_Z_mult, (Zpower_Qpower 2 (ex + 1074)) by lia.
    rewrite (Zpower_Qpower 2 1074) by lia.
    change (inject_Z 2) with (2 # 1)%Q.
    rewrite (Qpower_plus (2 # 1) ex 1074) by discriminate.
    destruct sx; ring.
Qed.

Lemma scale_pos : (0 < inject_Z (2 ^ 1074))%Q.
Proof.
  change (inject_Z 0 < inject_Z (2 ^ 1074))%Q.
  rewrite <- Zlt_Qlt. apply pow2_pos. lia.
Qed.

Section ValueOrder.
Variables x y : JS.number.
Hypothesis Fx : JS.is_finite x = true.
Hypothesis Fy : JS.is_finite y = true.
Hypothesis Vx : JS.valid x = true.
Hypothesis Vy : JS.valid y = true.

Lemma scaled_lt : scaled x < scaled y <-> (toQ x < toQ y)%Q.
Proof.
  rewrite Zlt_Qlt, <- (toQ_scaled x Fx Vx), <- (toQ_scaled y Fy Vy).
  apply Qmult_lt_r. exact scale_pos.
Qed.

Lemma scaled_le : scaled x <= scaled y <-> (toQ x <= toQ y)%Q.
Proof.
  rewrite Zle_Qle, <- (toQ_scaled x Fx Vx), <- (toQ_scaled y Fy Vy).
  apply Qmult_le_r. exact scale_pos.
Qed.
End ValueOrder.

Lemma finite_not_NaN (x : JS.number) : JS.is_finite x = true -> JS.isNaN x = false.
Proof. destruct x; intros; try discriminate; reflexivity. Qed.

(** The comparison operators on well-formed finite numbers are the
    comparisons of their rational values. *)
Section OperatorsByValue.
Variables x y : JS.number.
Hypothesis Fx : JS.is_finite x = true.
Hypothesis Fy : JS.is_finite y = true.
Hypothesis Vx : JS.valid x = true.
Hypothesis Vy : JS.valid y = true.

Lemma lt_value : (x <? y)%js = true <-> (toQ x < toQ y)%Q.
Proof.
  rewrite <- (scaled_lt x y Fx Fy Vx Vy).
  rewrite (lt_key x y (finite_not_NaN x Fx) (finite_not_NaN y Fy)).
  rewrite (key_scaled x y Fx Fy Vx Vy).
  destruct (Z.compare_spec (scaled x) (scaled y)); split; intros;
    try discriminate; try reflexivity; lia.
Qed.

Lemma le_value : (x <=? y)%js = true <-> (toQ x <= toQ y)%Q.
Proof.
  rewrite <- (scaled_le x y Fx Fy Vx Vy).
  rewrite (le_key x y (finite_not_NaN x Fx) (finite_not_NaN y Fy)).
  rewrite (key_scaled x y Fx Fy Vx Vy).
  destruct (Z.compare_spec (scaled x) (scaled y)); split; intros;
    try discriminate; try reflexivity; lia.
Qed.
End OperatorsByValue.

Lemma toQ_n70 : (toQ n70 == 70)%Q.
Proof. vm_compute. reflexivity. Qed.
Lemma toQ_n130 : (toQ n130 == 130)%Q.
Proof. vm_compute. reflexivity. Qed.
Lemma toQ_n180 : (toQ n180 == 180)%Q.
Proof. vm_compute. reflexivity. Qed.

Lemma in_band_value (v : JS.number) (b : StatusBand) :
  JS.is_finite v = true -> JS.valid v = true ->
  in_band b v = true <-> in_range b (toQ v).
Proof.
  intros Fv Vv.
  destruct b; unfold in_band, in_range, JS.gt, JS.ge;
    rewrite ?andb_true_iff,
      ?(lt_value v n70 Fv eq_refl Vv eq_refl),
      ?(le_value v n130 Fv eq_refl Vv eq_refl),
      ?(le_value v n180 Fv eq_refl Vv eq_refl),
      ?(le_value n70 v eq_refl Fv eq_refl Vv),
      ?(lt_value n130 v eq_refl Fv eq_refl Vv),
      ?(lt_value n180 v eq_refl Fv eq_refl Vv),
      ?toQ_n70, ?toQ_n130, ?toQ_n180; reflexivity.
Qed.

(** C1. Every number (every value other than NaN) is given exactly one of the
    four bands by the row classifier, and it is the band whose range holds
    the value: below 70 Hypoglycemia, from 70 to 130 Optimal, above 130 up to
    180 Moderate, above 180 Hyperglycemia. On a finite value the ranges are
    those of its rational value, so they split the line without gap or
    overlap; 130 itself is Optimal and 130.01 is Moderate. *)
Theorem classifier_partition (v : JS.number) :
  JS.isNaN v = false ->
  (exists b : StatusBand,
      band_of_style (style_of v) = Some b
      /\ in_band b v = true
      /\ forall b', in_band b' v = true -> b' = b)
  /\ (JS.is_finite v = true -> JS.valid v = true ->
      forall b, band_of_style (style_of v) = Some b <-> in_range b (toQ v))
  /\ band_of_style (getGlicemiaStyle "130") = Some Optimal
  /\ band_of_style (getGlicemiaStyle "130.01") = Some Moderate.
Proof.
  intros Hv. split; [|split; [|split; reflexivity]].
  - destruct (style_of_band_total v) as [b Hb]. exists b.
    split; [exact Hb|]. split.
    + apply (style_of_in_band v b Hv). exact Hb.
    + intros b' Hb'. apply (style_of_in_band v b' Hv) in Hb'. congruence.
  - intros Fv Vv b. rewrite (style_of_in_band v b Hv).
    apply in_band_value; assumption.
Qed.

Lemma classifier_partition_witness :
  exists b : StatusBand,
    band_of_style (getGlicemiaStyle "69.9") = Some b
    /\ in_band b (parseFloat "69.9") = true
    /\ forall b', in_band b' (parseFloat "69.9") = true -> b' = b.
Proof.
  refine (proj1 (classifier_partition (parseFloat "69.9") _)).
  reflexivity.
Defined.

(** ** Extrema *)

Section Selection.
Variable better : JS.number -> JS.number -> bool.
Variable step : JS.number -> JS.number -> JS.number.
Hypothesis step_spec : forall l n,
  JS.isNaN l = false -> JS.isNaN n = false ->
  step l n = if better n l then n else l.
Hypothesis better_asym : forall a b, better a b = true -> better b a = false.
Hypothesis better_trans : forall a b c,
  better a b = true -> better b c = true -> better a c = true.
Hypothesis better_total : forall a b,
  JS.isNaN a = false -> JS.isNaN b = false ->
  better a b = false -> better b a = false -> a = b.

Lemma step_number (l n : JS.number) :
  JS.isNaN l = false -> JS.isNaN n = false -> JS.isNaN (step l n) = false.
Proof.
  intros Hl Hn. rewrite (step_spec l n Hl Hn). now destruct (better n l).
Qed.

Lemma step_swap (a x y : JS.number) :
  JS.isNaN a = false -> JS.isNaN x = false -> JS.isNaN y = false ->
  step (step a x) y = step (step a y) x.
Proof.
  intros Ha Hx Hy.
  rewrite (step_spec (step a x) y (step_number a x Ha Hx) Hy).
  rewrite (step_spec (step a y) x (step_number a y Ha Hy) Hx).
  rewrite (step_spec a x Ha Hx), (step_spec a y Ha Hy).
  destruct (better x a) eqn:Exa, (better y a) eqn:Eya.
  - destruct (better y x) eqn:Eyx.
    + now rewrite (better_asym y x Eyx).
    + destruct (better x y) eqn:Exy; [reflexivity|].
      apply better_total; assumption.
  - rewrite ?Exa. destruct (better y x) eqn:Eyx; [|reflexivity].
    rewrite (better_trans y x a Eyx Exa) in Eya. discriminate.
  - rewrite ?Eya. destruct (better x y) eqn:Exy; [|reflexivity].
    rewrite (better_trans x y a Exy Eya) in Exa. discriminate.
  - now rewrite ?Exa, ?Eya.
Qed.

Lemma loop_perm (l l' : list JS.number) :
  Permutation l l' ->
  forall best, JS.isNaN best = false -> numbers l ->
  extremum_loop step best l = extremum_loop step best l'.
Proof.
  induction 1 as [|x l l' HP IH|x y l|l l' l'' HP1 IH1 HP2 IH2];
    intros best Hb Hl.
  - reflexivity.
  - inversion Hl as [|? ? Hx Hl']; subst. simpl. rewrite Hx.
    apply IH; [apply step_number|]; assumption.
  - inversion Hl as [|? ? Hy Hl']; subst.
    inversion Hl' as [|? ? Hx Hl'']; subst.
    simpl. rewrite Hx, Hy. now rewrite step_swap.
  - rewrite IH1 by assumption. apply IH2; [assumption|].
    unfold numbers. eapply Permutation_Forall; eassumption.
Qed.

(** The result of the loop is the start value or an argument, is a
    number, and no candidate is better than it. *)
Lemma loop_result (args : list JS.number) :
  forall best, JS.isNaN best = false -> numbers args ->
  let r := extremum_loop step best args in
  JS.isNaN r = false
  /\ (r = best \/ In r args)
  /\ (forall v, v = best \/ In v args -> better v r = false).
Proof.
  induction args as [|x args IH]; intros best Hb Hl; cbn zeta.
  - simpl. split; [assumption|]. split; [now left|].
    intros v [->|[]]. destruct (better best best) eqn:E; [|reflexivity].
    now rewrite (better_asym best best E) in E.
  - inversion Hl as [|? ? Hx Hl']; subst. simpl. rewrite Hx.
    destruct (IH (step best x) (step_number best x Hb Hx) Hl')
      as (Hr & Hin & Hopt).
    split; [assumption|]. split.
    + destruct Hin as [Hin|Hin]; [|right; now right].
      rewrite Hin, (step_spec best x Hb Hx).
      destruct (better x best); [right; now left|now left].
    + intros v Hv.
      set (r := extremum_loop step (step best x) args) in *.
      assert (Hs : better (step best x) r = false) by (apply Hopt; now left).
      assert (Hstep : forall w, w = best \/ w = x -> better w r = false).
      { intros w Hw. destruct (better w r) eqn:Ewr; [|reflexivity].
        rewrite (step_spec best x Hb Hx) in Hs.
        destruct (better x best) eqn:Exb.
        - destruct Hw as [->| ->]; [|congruence].
          pose proof (better_trans _ _ _ Exb Ewr). congruence.
        - destruct Hw as [->| ->]; [congruence|].
          destruct (better r best) eqn:Erb.
          + pose proof (better_trans _ _ _ Ewr Erb). congruence.
          + assert (Hrb : r = best) by (apply better_total; assumption).
            rewrite Hrb in Ewr. congruence. }
      destruct Hv as [->|[->|Hv]].
      * apply Hstep. now left.
      * apply Hstep. now right.
      * apply Hopt. now right.
Qed.
End Selection.

Lemma skey_inj (x y : JS.number) :
  JS.isNaN x = false -> JS.isNaN y = false -> skey x = skey y -> x = y.
Proof.
  destruct x as [[]|[]| |[] mx ex], y as [[]|[]| |[] my ey];
    intros Hx Hy H; try discriminate; try reflexivity;
    injection H; intros; f_equal; lia.
Qed.

Lemma min_step_spec (l n : JS.number) :
  JS.isNaN l = false -> JS.isNaN n = false ->
  min_step l n = if min_better n l then n else l.
Proof.
  intros Hl Hn.
  destruct n as [[]|[]| |[] mn en], l as [[]|[]| |[] ml el];
    try discriminate; try reflexivity;
    unfold min_step; rewrite (lt_key _ _ Hn Hl); reflexivity.
Qed.

Lemma max_step_spec (h n : JS.number) :
  JS.isNaN h = false -> JS.isNaN n = false ->
  max_step h n = if max_better n h then n else h.
Proof.
  intros Hh Hn.
  destruct n as [[]|[]| |[] mn en], h as [[]|[]| |[] mh eh];
    try discriminate; try reflexivity;
    unfold max_step; rewrite (gt_key _ _ Hn Hh); reflexivity.
Qed.

Lemma lexcmp_trans (c : comparison) (x y z : Z * Z * Z) :
  c <> Eq -> lexcmp x y = c -> lexcmp y z = c -> lexcmp x z = c.
Proof.
  destruct x as [[x1 x2] x3], y as [[y1 y2] y3], z as [[z1 z2] z3].
  destruct c; intros Hc; [congruence| |];
    rewrite ?lexcmp_Lt, ?lexcmp_Gt; lia.
Qed.

Lemma min_better_asym (a b : JS.number) :
  min_better a b = true -> min_better b a = false.
Proof.
  unfold min_better. rewrite (lexcmp_antisym (skey a) (skey b)).
  destruct (lexcmp (skey a) (skey b)); intros; try discriminate; reflexivity.
Qed.

Lemma max_better_asym (a b : JS.number) :
  max_better a b = true -> max_better b a = false.
Proof.
  unfold max_better. rewrite (lexcmp_antisym (skey a) (skey b)).
  destruct (lexcmp (skey a) (skey b)); intros; try discriminate; reflexivity.
Qed.

Lemma min_better_trans (a b c : JS.number) :
  min_better a b = true -> min_better b c = true -> min_better a c = true.
Proof.
  unfold min_better. intros H1 H2.
  rewrite (lexcmp_trans Lt (skey a) (skey b) (skey c)); try discriminate;
    [reflexivity| |].
  - destruct (lexcmp (skey a) (skey b)); congruence.
  - destruct (lexcmp (skey b) (skey c)); congruence.
Qed.

Lemma max_better_trans (a b c : JS.number) :
  max_better a b = true -> max_better b c = true -> max_better a c = true.
Proof.
  unfold max_better. intros H1 H2.
  rewrite (lexcmp_trans Gt (skey a) (skey b) (skey c)); try discriminate;
    [reflexivity| |].
  - destruct (lexcmp (skey a) (skey b)); congruence.
  - destruct (lexcmp (skey b) (skey c)); congruence.
Qed.

Lemma lexcmp_eq (x y : Z * Z * Z) : lexcmp x y = Eq -> x = y.
Proof.
  destruct x as [[x1 x2] x3], y as [[y1 y2] y3]. rewrite lexcmp_Eq.
  intros (-> & -> & ->). reflexivity.
Qed.

Lemma min_better_total (a b : JS.number) :
  JS.isNaN a = false -> JS.isNaN b = false ->
  min_better a b = false -> min_better b a = false -> a = b.
Proof.
  unfold min_better. rewrite (lexcmp_antisym (skey a) (skey b)).
  intros Ha Hb H1 H2. apply skey_inj; try assumption. apply lexcmp_eq.
  destruct (lexcmp (skey a) (skey b)); simpl in *; congruence.
Qed.

Lemma max_better_total (a b : JS.number) :
  JS.isNaN a = false -> JS.isNaN b = false ->
  max_better a b = false -> max_better b a = false -> a = b.
Proof.
  unfold max_better. rewrite (lexcmp_antisym (skey a) (skey b)).
  intros Ha Hb H1 H2. apply skey_inj; try assumption. apply lexcmp_eq.
  destruct (lexcmp (skey a) (skey b)); simpl in *; congruence.
Qed.

(** The refined order agrees with the order of the operators. *)
Lemma not_min_better_le (v m : JS.number) :
  JS.isNaN v = false -> JS.isNaN m = false ->
  min_better v m = false -> (m <=? v)%js = true.
Proof.
  intros Hv Hm. rewrite (le_key m v Hm Hv). unfold min_better.
  destruct v as [[]|[]| |[] mv ev], m as [[]|[]| |[] mm em];
    try discriminate; try reflexivity; cbn [skey];
    rewrite (lexcmp_antisym (key (S754_finite _ mm em)));
    destruct (lexcmp _ _); intros; try discriminate; reflexivity.
Qed.

Lemma not_max_better_ge (v m : JS.number) :
  JS.isNaN v = false -> JS.isNaN m = false ->
  max_better v m = false -> (m >=? v)%js = true.
Proof.
  intros Hv Hm. rewrite (ge_key m v Hm Hv). unfold max_better.
  destruct v as [[]|[]| |[] mv ev], m as [[]|[]| |[] mm em];
    try discriminate; try reflexivity; cbn [skey];
    rewrite (lexcmp_antisym (key (S754_finite _ mm em)));
    destruct (lexcmp _ _); intros; try discriminate; reflexivity.
Qed.

Lemma Math_min_perm (l l' : list JS.number) :
  Permutation l l' -> numbers l -> Math_min l = Math_min l'.
Proof.
  intros HP Hl. unfold Math_min.
  apply (loop_perm min_better min_step min_step_spec min_better_asym
           min_better_trans min_better_total l l' HP); [reflexivity|exact Hl].
Qed.

Lemma Math_max_perm (l l' : list JS.number) :
  Permutation l l' -> numbers l -> Math_max l = Math_max l'.
Proof.
  intros HP Hl. unfold Math_max.
  apply (loop_perm max_better max_step max_step_spec max_better_asym
           max_better_trans max_better_total l l' HP); [reflexivity|exact Hl].
Qed.

(** [Math.min] of a non-empty list of numbers is an element of the list
    that is [<=] every element. *)
Lemma Math_min_least (l : list JS.number) :
  numbers l -> l <> [] ->
  In (Math_min l) l /\ forall v, In v l -> (Math_min l <=? v)%js = true.
Proof.
  intros Hl Hne.
  destruct (loop_result min_better min_step min_step_spec min_better_asym
              min_better_trans min_better_total l JS.Infinity eq_refl Hl)
    as (Hr & Hin & Hopt).
  fold (Math_min l) in Hr, Hin, Hopt.
  assert (Hnum : forall v, In v l -> JS.isNaN v = false).
  { apply Forall_forall. exact Hl. }
  split.
  - destruct Hin as [Hin|Hin]; [|exact Hin].
    destruct l as [|x l]; [contradiction|].
    assert (Hx : min_better x (Math_min (x :: l)) = false)
      by (apply Hopt; right; now left).
    rewrite Hin in Hx. left.
    assert (Hxn : JS.isNaN x = false) by (apply Hnum; now left).
    rewrite Hin. apply min_better_total; try assumption; try reflexivity.
    destruct x as [[]|[]| |[] mx ex]; try discriminate; reflexivity.
  - intros v Hv. apply not_min_better_le; [now apply Hnum|assumption|].
    apply Hopt. now right.
Qed.

Lemma Math_max_greatest (l : list JS.number) :
  numbers l -> l <> [] ->
  In (Math_max l) l /\ forall v, In v l -> (Math_max l >=? v)%js = true.
Proof.
  intros Hl Hne.
  destruct (loop_result max_better max_step max_step_spec max_better_asym
              max_better_trans max_better_total l JS.NegInfinity eq_refl Hl)
    as (Hr & Hin & Hopt).
  fold (Math_max l) in Hr, Hin, Hopt.
  assert (Hnum : forall v, In v l -> JS.isNaN v = false).
  { apply Forall_forall. exact Hl. }
  split.
  - destruct Hin as [Hin|Hin]; [|exact Hin].
    destruct l as [|x l]; [contradiction|].
    assert (Hx : max_better x (Math_max (x :: l)) = false)
      by (apply Hopt; right; now left).
    rewrite Hin in Hx. left.
    assert (Hxn : JS.isNaN x = false) by (apply Hnum; now left).
    rewrite Hin. apply max_better_total; try assumption; try reflexivity.
    destruct x as [[]|[]| |[] mx ex]; try discriminate; reflexivity.
  - intros v Hv. apply not_max_better_ge; [now apply Hnum|assumption|].
    apply Hopt. now right.
Qed.

(** ** The parsed values of a record list *)

Lemma parsed_values_numbers (registros : list Registro) :
  numbers (parsed_values registros).
Proof.
  apply Forall_forall. intros v Hv. unfold parsed_values in Hv.
  apply filter_In in Hv. destruct Hv as [_ Hv].
  now apply negb_true_iff in Hv.
Qed.

Lemma parsed_values_In (registros : list Registro) (v : JS.number) :
  In v (parsed_values registros) <->
  JS.isNaN v = false /\ exists r, In r registros /\ parseFloat (glicemia r) = v.
Proof.
  unfold parsed_values. rewrite filter_In, in_map_iff, negb_true_iff.
  split.
  - intros [(r & Hr & Hin) Hv]. split; [assumption|]. exists r. now split.
  - intros [Hv (r & Hin & Hr)]. split; [|assumption]. exists r. now split.
Qed.

Lemma filter_perm {A : Type} (f : A -> bool) (l l' : list A) :
  Permutation l l' -> Permutation (filter f l) (filter f l').
Proof.
  induction 1 as [|x l l' HP IH|x y l|l l' l'' HP1 IH1 HP2 IH2]; simpl.
  - constructor.
  - destruct (f x); [now constructor|assumption].
  - destruct (f x), (f y); try reflexivity. constructor.
  - now transitivity (filter f l').
Qed.

Lemma parsed_values_perm (l l' : list Registro) :
  Permutation l l' -> Permutation (parsed_values l) (parsed_values l').
Proof.
  intros HP. unfold parsed_values. apply filter_perm. now apply Permutation_map.
Qed.

Lemma parsed_values_length (registros : list Registro) :
  List.length (parsed_values registros) =
  List.length (filter (fun r => negb (JS.isNaN (parseFloat (glicemia r)))) registros)
  /\ (List.length (parsed_values registros) <= List.length registros)%nat.
Proof.
  unfold parsed_values. induction registros as [|r rs [IH1 IH2]]; simpl.
  - split; reflexivity.
  - destruct (JS.isNaN (parseFloat (glicemia r))); simpl; split; lia.
Qed.

(** ** The summary of a non-empty list *)

Lemma stats_nonempty (registros : list Registro) :
  registros <> [] ->
  stats registros =
    {| avg := VStr (toFixed (average (parsed_values registros)) 1);
       count := List.length (parsed_values registros);
       min := VStr (toFixed (Math_min (parsed_values registros)) 0);
       max := VStr (toFixed (Math_max (parsed_values registros)) 0);
       status := fst (status_color (average (parsed_values registros)));
       color := Some (snd (status_color (average (parsed_values registros)))) |}.
Proof.
  intros Hne. unfold stats. destruct registros as [|r rs]; [contradiction|].
  cbn [List.length Nat.eqb].
  destruct (status_color (average (parsed_values (r :: rs)))); reflexivity.
Qed.



(** ** Exact sums of whole readings *)

Lemma iter_xO_value (p k : positive) :
  Z.pos (Pos.iter xO p k) = Z.pos p * 2 ^ Z.pos k.
Proof.
  induction k as [|k IH] using Pos.peano_ind.
  - simpl. lia.
  - rewrite Pos.iter_succ, Pos2Z.inj_succ, Z.pow_succ_r by lia.
    rewrite Pos2Z.inj_xO, IH. ring.
Qed.

Lemma digits2_unique (m : positive) (d : Z) :
  2 ^ (d - 1) <= Z.pos m < 2 ^ d -> 0 < d -> Z.pos (digits2_pos m) = d.
Proof.
  intros [H1 H2] Hd. pose proof (digits2_bounds m) as [B1 B2].
  set (d' := Z.pos (digits2_pos m)) in *.
  assert (0 < d') by (unfold d'; lia).
  destruct (Z.lt_trichotomy d' d) as [Hlt|[Heq|Hgt]]; [|assumption|].
  - assert (2 ^ d' <= 2 ^ (d - 1)) by (apply Z.pow_le_mono_r; lia). lia.
  - assert (2 ^ d <= 2 ^ (d' - 1)) by (apply Z.pow_le_mono_r; lia). lia.
Qed.

Lemma digits2_shift (m p : positive) (j : Z) :
  0 <= j -> Z.pos m = Z.pos p * 2 ^ j ->
  Z.pos (digits2_pos m) = Z.pos (digits2_pos p) + j.
Proof.
  intros Hj Hm. pose proof (digits2_bounds p) as [B1 B2].
  apply digits2_unique; [|lia]. rewrite Hm.
  replace (Z.pos (digits2_pos p) + j - 1) with (Z.pos (digits2_pos p) - 1 + j) by lia.
  rewrite !Z.pow_add_r by lia.
  assert (0 < 2 ^ j) by (apply Z.pow_pos_nonneg; lia).
  split; [apply Z.mul_le_mono_nonneg_r; lia|apply Z.mul_lt_mono_pos_r; lia].
Qed.

Lemma shr_exact (n : positive) :
  forall q : positive,
  SpecFloat.iter_pos shr_1 n
    {| shr_m := Z.pos (Pos.iter xO q n); shr_r := false; shr_s := false |} =
  {| shr_m := Z.pos q; shr_r := false; shr_s := false |}.
Proof.
  induction n as [n IH|n IH|]; intros q; simpl.
  - rewrite IH, IH. reflexivity.
  - rewrite IH, IH. reflexivity.
  - reflexivity.
Qed.

Lemma shr_fexp_shift (m q : positive) (e n : Z) :
  0 <= n -> Z.pos m = Z.pos q * 2 ^ n ->
  Z.pos (digits2_pos q) = 53 -> -1074 <= e + n ->
  shr_fexp JS.prec JS.emax (Z.pos m) e loc_Exact =
  ({| shr_m := Z.pos q; shr_r := false; shr_s := false |}, e + n).
Proof.
  intros Hn Hm Hq He.
  unfold shr_fexp. cbn [Zdigits2 shr_record_of_loc].
  rewrite (digits2_shift m q n Hn Hm), Hq.
  unfold fexp, emin, JS.prec, JS.emax.
  replace (Z.max (53 + n + e - 53) (3 - 1024 - 53) - e) with n by lia.
  destruct n as [|np|np]; [| |lia].
  - unfold shr. rewrite Z.add_0_r. do 2 f_equal.
    rewrite Z.pow_0_r, Z.mul_1_r in Hm. exact Hm.
  - unfold shr. f_equal.
    assert (m = Pos.iter xO q np) as ->.
    { apply Pos2Z.inj. rewrite iter_xO_value. exact Hm. }
    apply shr_exact.
Qed.

Lemma binary_round_aux_shift (s : bool) (m q : positive) (e n : Z) :
  0 <= n -> Z.pos m = Z.pos q * 2 ^ n ->
  Z.pos (digits2_pos q) = 53 -> -1074 <= e + n <= 971 ->
  binary_round_aux JS.prec JS.emax s (Z.pos m) e loc_Exact =
  S754_finite s q (e + n).
Proof.
  intros Hn Hm Hq He. unfold binary_round_aux.
  rewrite (shr_fexp_shift m q e n Hn Hm Hq) by lia.
  cbn [shr_m loc_of_shr_record round_nearest_even].
  rewrite (shr_fexp_shift q q (e + n) 0) by (try rewrite Z.pow_0_r; lia).
  cbn [shr_m]. rewrite Z.add_0_r.
  replace (e + n <=? JS.emax - JS.prec) with true; [reflexivity|].
  symmetry. apply Z.leb_le. unfold JS.emax, JS.prec. lia.
Qed.

Lemma normal_mantissa (p : positive) :
  Z.pos (digits2_pos p) <= 53 ->
  Z.pos (Z.to_pos (Z.pos p * 2 ^ (53 - Z.pos (digits2_pos p)))) =
    Z.pos p * 2 ^ (53 - Z.pos (digits2_pos p))
  /\ Z.pos (digits2_pos (Z.to_pos (Z.pos p * 2 ^ (53 - Z.pos (digits2_pos p))))) = 53.
Proof.
  intros Hd. set (k := 53 - Z.pos (digits2_pos p)).
  assert (0 < Z.pos p * 2 ^ k).
  { apply Z.mul_pos_pos; [lia|apply Z.pow_pos_nonneg; lia]. }
  assert (E : Z.pos (Z.to_pos (Z.pos p * 2 ^ k)) = Z.pos p * 2 ^ k)
    by (apply Z2Pos.id; assumption).
  split; [exact E|].
  rewrite (digits2_shift _ p k) by (unfold k; lia || exact E). unfold k. lia.
Qed.

(** Rounding [p * 2^j] at exponent [-j] gives the number of [p]. *)
Lemma binary_round_exact (m p : positive) (j : Z) :
  0 <= j -> Z.pos m = Z.pos p * 2 ^ j -> Z.pos (digits2_pos p) <= 53 ->
  binary_round JS.prec JS.emax false m (- j) = normal p.
Proof.
  intros Hj Hm Hd.
  destruct (normal_mantissa p Hd) as [Hq1 Hq2].
  unfold binary_round, normal.
  rewrite (digits2_shift m p j Hj Hm).
  remember (Z.pos (digits2_pos p)) as d eqn:Ed.
  remember (Z.to_pos (Z.pos p * 2 ^ (53 - d))) as q eqn:Eq.
  assert (Hd1 : 0 < d) by (subst d; lia).
  clear Ed Eq.
  replace (fexp JS.prec JS.emax (d + j + - j)) with (d - 53)
    by (unfold fexp, emin, JS.prec, JS.emax; lia).
  unfold shl_align.
  destruct (d - 53 - - j) as [|k|k] eqn:Ek.
  - rewrite (binary_round_aux_shift false m q (- j) 0); try lia.
    + f_equal. lia.
    + rewrite Z.pow_0_r, Z.mul_1_r, Hq1, Hm. f_equal. f_equal. lia.
  - rewrite (binary_round_aux_shift false m q (- j) (Z.pos k)); try lia.
    + f_equal. lia.
    + rewrite Hq1, Hm.
      replace j with (53 - d + Z.pos k) at 1 by lia.
      rewrite Z.pow_add_r by lia. ring.
  - rewrite (binary_round_aux_shift false (Pos.iter xO m k) q (d - 53) 0); try lia.
    + f_equal. lia.
    + rewrite iter_xO_value, Hq1, Hm, Z.pow_0_r, Z.mul_1_r.
      replace (53 - d) with (j + Z.pos k) by lia.
      rewrite Z.pow_add_r by lia. ring.
Qed.

Lemma digits2_le_53 (p : positive) : Z.pos p < 2 ^ 53 -> Z.pos (digits2_pos p) <= 53.
Proof.
  intros Hp. pose proof (digits2_bounds p) as [B1 _].
  destruct (Z.le_gt_cases (Z.pos (digits2_pos p)) 53) as [H|H]; [assumption|].
  assert (2 ^ 53 <= 2 ^ (Z.pos (digits2_pos p) - 1)) by (apply Z.pow_le_mono_r; lia).
  lia.
Qed.

Lemma of_Z_normal (p : positive) :
  Z.pos p < 2 ^ 53 -> JS.of_Z (Z.pos p) = normal p.
Proof.
  intros Hp. unfold JS.of_Z, binary_normalize.
  change 0 with (- 0) at 1.
  apply binary_round_exact; [lia|rewrite Z.pow_0_r; lia|now apply digits2_le_53].
Qed.

Lemma shl_align_value (m : positive) (e e' : Z) :
  e' <= e ->
  Z.pos (fst (shl_align m e e')) = Z.pos m * 2 ^ (e - e').
Proof.
  intros H. unfold shl_align.
  destruct (e' - e) as [|k|k] eqn:Ek; cbn [fst]; try lia.
  - replace (e - e') with 0 by lia. rewrite Z.pow_0_r. lia.
  - rewrite iter_xO_value. f_equal. f_equal. lia.
Qed.

Lemma add_normal (p1 p2 : positive) :
  Z.pos p1 + Z.pos p2 < 2 ^ 53 ->
  JS.add (normal p1) (normal p2) = normal (p1 + p2).
Proof.
  intros Hsum.
  assert (Hd1 : Z.pos (digits2_pos p1) <= 53) by (apply digits2_le_53; lia).
  assert (Hd2 : Z.pos (digits2_pos p2) <= 53) by (apply digits2_le_53; lia).
  destruct (normal_mantissa p1 Hd1) as [Hq1 _].
  destruct (normal_mantissa p2 Hd2) as [Hq2 _].
  unfold JS.add, normal, SFadd. cbv zeta.
  remember (Z.pos (digits2_pos p1)) as d1 eqn:E1.
  remember (Z.pos (digits2_pos p2)) as d2 eqn:E2.
  remember (Z.to_pos (Z.pos p1 * 2 ^ (53 - d1))) as q1 eqn:F1.
  remember (Z.to_pos (Z.pos p2 * 2 ^ (53 - d2))) as q2 eqn:F2.
  assert (0 < d1) by (subst d1; lia). assert (0 < d2) by (subst d2; lia).
  clear E1 E2 F1 F2.
  set (ez := Z.min (d1 - 53) (d2 - 53)).
  assert (Hez : ez <= d1 - 53 /\ ez <= d2 - 53 /\ ez <= 0) by (unfold ez; lia).
  pose proof (shl_align_value q1 (d1 - 53) ez ltac:(lia)) as A1.
  pose proof (shl_align_value q2 (d2 - 53) ez ltac:(lia)) as A2.
  set (a1 := fst (shl_align q1 (d1 - 53) ez)) in *.
  set (a2 := fst (shl_align q2 (d2 - 53) ez)) in *.
  cbn [cond_Zopp Z.add binary_normalize].
  replace ez with (- - ez) at 1 by lia.
  apply binary_round_exact; [lia| |apply digits2_le_53; lia].
  rewrite !Pos2Z.inj_add, A1, A2, Hq1, Hq2.
  rewrite <- !Z.mul_assoc, <- !Z.pow_add_r by lia.
  replace (53 - d1 + (d1 - 53 - ez)) with (- ez) by lia.
  replace (53 - d2 + (d2 - 53 - ez)) with (- ez) by lia.
  ring.
Qed.

(** Adding the numbers of two non-negative integers whose sum is below
    [2^53] gives the number of the sum: no rounding takes place. *)
Lemma add_of_Z (a b : Z) :
  0 <= a -> 0 <= b -> a + b < 2 ^ 53 ->
  JS.add (JS.of_Z a) (JS.of_Z b) = JS.of_Z (a + b).
Proof.
  intros Ha Hb Hab.
  destruct a as [|p1|p1]; [|destruct b as [|p2|p2]|]; try lia.
  - destruct b as [|p2|p2]; try lia; [reflexivity|].
    rewrite Z.add_0_l. rewrite (of_Z_normal p2) by lia. reflexivity.
  - rewrite Z.add_0_r. rewrite (of_Z_normal p1) by lia. reflexivity.
  - rewrite (of_Z_normal p1), (of_Z_normal p2) by lia.
    change (Z.pos p1 + Z.pos p2) with (Z.pos (p1 + p2)).
    rewrite (of_Z_normal (p1 + p2)) by lia.
    apply add_normal. exact Hab.
Qed.

Lemma total_perm (ks ks' : list Z) : Permutation ks ks' -> total ks = total ks'.
Proof.
  induction 1; simpl; try lia.
Qed.

Lemma total_nonneg (ks : list Z) : Forall (fun k => 0 <= k) ks -> 0 <= total ks.
Proof. induction 1; simpl; lia. Qed.

Lemma sum_of_Z (ks : list Z) :
  Forall (fun k => 0 <= k) ks ->
  forall acc, 0 <= acc -> acc + total ks < 2 ^ 53 ->
  fold_left (fun acc v => JS.add acc v) (map JS.of_Z ks) (JS.of_Z acc)
  = JS.of_Z (acc + total ks).
Proof.
  induction 1 as [|k ks Hk Hks IH]; intros acc Hacc Hsum; simpl in *.
  - now rewrite Z.add_0_r.
  - pose proof (total_nonneg ks Hks).
    rewrite add_of_Z by lia. rewrite IH by lia. f_equal. lia.
Qed.

(** The left-to-right sum of whole readings is the number of their total. *)
Lemma sum_values_whole (ks : list Z) :
  Forall (fun k => 0 <= k) ks -> total ks < 2 ^ 53 ->
  sum_values (map JS.of_Z ks) = JS.of_Z (total ks).
Proof.
  intros Hks Hsum. unfold sum_values.
  change n0 with (JS.of_Z 0). rewrite sum_of_Z; [reflexivity|assumption|lia|lia].
Qed.

(** ** Reordering the records *)

(** C9, as stated, fails: the same three readings in two orders have the
    left-to-right sums 390.00000000000000 and 390.00000000000006, so the
    averages fall on the two sides of the threshold 130 and the statuses
    differ. *)
Lemma stats_depends_on_order :
  Permutation readings_up readings_down
  /\ status (stats readings_up) = "ótimo"
  /\ status (stats readings_down) = "moderado"
  /\ stats readings_up <> stats readings_down.
Proof.
  split; [|split; [|split]].
  - unfold readings_up, readings_down. apply Permutation_map.
    apply (Permutation_rev ["107.3"; "131.4"; "151.3"]).
  - vm_compute. reflexivity.
  - vm_compute. reflexivity.
  - intros H. apply (f_equal status) in H. vm_compute in H. discriminate.
Qed.

(** C9, amended. Under every reordering of the records the parsed values
    are reordered, and the count, the minimum and the maximum of the summary
    are unchanged; the average and the status are unchanged too whenever
    the left-to-right floating-point sum of the parsed values is, and it is
    whenever the parsed values are non-negative integers with a total below
    [2^53]: the whole summary is then the same. *)
Theorem stats_permutation (l l' : list Registro) :
  Permutation l l' ->
  Permutation (parsed_values l) (parsed_values l')
  /\ count (stats l) = count (stats l')
  /\ min (stats l) = min (stats l')
  /\ max (stats l) = max (stats l')
  /\ (sum_values (parsed_values l) = sum_values (parsed_values l') ->
      stats l = stats l')
  /\ (whole_readings (parsed_values l) -> stats l = stats l').
Proof.
  intros HP.
  pose proof (parsed_values_perm l l' HP) as HPv.
  pose proof (Permutation_length HPv) as Hlen.
  destruct l as [|r l].
  { apply Permutation_nil in HP. subst l'. repeat split. constructor. }
  assert (Hne : r :: l <> []) by discriminate.
  assert (Hne' : l' <> []).
  { intros ->. apply Permutation_sym, Permutation_nil in HP. discriminate. }
  rewrite (stats_nonempty (r :: l) Hne), (stats_nonempty l' Hne').
  cbn [count min max].
  rewrite (Math_min_perm _ _ HPv (parsed_values_numbers _)).
  rewrite (Math_max_perm _ _ HPv (parsed_values_numbers _)).
  assert (Hsame : sum_values (parsed_values (r :: l)) = sum_values (parsed_values l') ->
    average (parsed_values (r :: l)) = average (parsed_values l')).
  { intros Hsum. unfold average. now rewrite Hsum, Hlen. }
  repeat split; try assumption.
  - intros Hsum. now rewrite (Hsame Hsum), Hlen.
  - intros (ks & Hks & Hpos & Htot).
    rewrite Hks in HPv. apply Permutation_sym in HPv.
    destruct (Permutation_map_inv _ _ HPv) as (ks' & Hks' & HPk).
    assert (Hsum : sum_values (parsed_values (r :: l)) = sum_values (parsed_values l')).
    { rewrite Hks, Hks'.
      rewrite (sum_values_whole ks Hpos Htot).
      rewrite (sum_values_whole ks').
      - now rewrite (total_perm ks ks' HPk).
      - eapply Permutation_Forall; eassumption.
      - now rewrite <- (total_perm ks ks' HPk). }
    now rewrite (Hsame Hsum), Hlen.
Qed.

Lemma stats_permutation_witness :
  stats (map reading ["98"; "141"; "110"]) =
  stats (map reading ["110"; "98"; "141"]).
Proof.
  refine (proj2 (proj2 (proj2 (proj2 (proj2
    (stats_permutation (map reading ["98"; "141"; "110"])
                       (map reading ["110"; "98"; "141"]) _))))) _).
  - apply Permutation_map.
    apply (Permutation_cons_app ["110"] ["141"] "98").
    apply perm_swap.
  - exists [98; 141; 110]. split; [reflexivity|].
    split; [repeat constructor; lia|reflexivity].
Defined.

(** ** What [toFixed] writes *)

Lemma Qfloor_quotient (a b : Z) :
  0 < b -> Qfloor (inject_Z a / inject_Z b) = a / b.
Proof.
  intros Hb. destruct b as [|b|b]; try lia.
  unfold Qdiv, Qinv, Qmult, inject_Z, Qfloor. cbn [Qnum Qden].
  now rewrite Z.mul_1_r, Pos.mul_1_l.
Qed.

Lemma Qpower2_nonneg (e : Z) : 0 <= e -> ((2 # 1) ^ e == inject_Z (2 ^ e))%Q.
Proof. intros H. now rewrite (Zpower_Qpower 2 e H). Qed.

Lemma Qpower2_neg (e : Z) : e < 0 -> ((2 # 1) ^ e == / inject_Z (2 ^ (- e)))%Q.
Proof.
  intros H. replace e with (- - e) at 1 by lia.
  rewrite Qpower_opp. rewrite (Zpower_Qpower 2 (- e)) by lia. reflexivity.
Qed.

(** The integer that [toFixed] writes is the magnitude, scaled by the power
    of ten, rounded to the nearest integer with halves up. *)
Lemma nearest_scaled_rounds (m : positive) (e : Z) (f : nat) :
  nearest_scaled m e f =
  round_half_up (toQ (S754_finite false m e) * inject_Z (10 ^ Z.of_nat f)).
Proof.
  unfold nearest_scaled, round_half_up. cbn [toQ].
  set (t := 10 ^ Z.of_nat f).
  assert (Ht : 0 < t) by (apply Z.pow_pos_nonneg; lia).
  destruct (Z.leb_spec 0 e) as [He|He].
  - assert (Hq : (1 * inject_Z (Z.pos m) * (2 # 1) ^ e * inject_Z t + (1 # 2)
                  == inject_Z (2 * (Z.pos m * t * 2 ^ e) + 1) / inject_Z 2)%Q).
    { rewrite (Qpower2_nonneg e He), !inject_Z_plus, !inject_Z_mult.
      change (inject_Z 1) with 1%Q. change (inject_Z 2) with (2 # 1)%Q. field. }
    rewrite Hq, Qfloor_quotient by lia.
    apply Z.div_unique with 1; lia.
  - assert (Hd : 0 < 2 ^ (- e)) by (apply Z.pow_pos_nonneg; lia).
    assert (Hq : (1 * inject_Z (Z.pos m) * (2 # 1) ^ e * inject_Z t + (1 # 2)
                  == inject_Z (2 * (Z.pos m * t) + 2 ^ (- e))
                     / inject_Z (2 ^ (- e + 1)))%Q).
    { rewrite (Qpower2_neg e He), Z.pow_add_r by lia.
      rewrite !inject_Z_plus, !inject_Z_mult.
      change (inject_Z (2 ^ 1)) with (2 # 1)%Q. change (inject_Z 2) with (2 # 1)%Q.
      field. intros H0. change 0%Q with (inject_Z 0) in H0.
      apply (proj1 (inject_Z_injective _ _)) in H0. lia. }
    rewrite Hq, Qfloor_quotient; [reflexivity|].
    apply Z.pow_pos_nonneg; lia.
Qed.

Lemma toFixed_rounds (x : JS.number) (f : nat) :
  JS.is_finite x = true ->
  (magnitude x < inject_Z (10 ^ 21))%Q ->
  toFixed x f =
  sign_prefix x
  ++ fixed_digits (round_half_up (magnitude x * inject_Z (10 ^ Z.of_nat f))) f.
Proof.
  intros Fx Hx. destruct x as [s|s| |s m e]; try discriminate.
  - unfold toFixed, magnitude, sign_prefix, round_half_up. cbn [SFabs toQ append].
    f_equal.
  - unfold toFixed, sign_prefix, magnitude. cbn [SFabs].
    rewrite <- nearest_scaled_rounds.
    replace ((0 <=? e) && (ten21 <=? integer_value m e)) with false;
      [now destruct s|].
    symmetry. apply andb_false_iff.
    destruct (Z.leb_spec 0 e) as [He|He]; [right|now left].
    apply Z.leb_gt. unfold magnitude in Hx. cbn [SFabs toQ] in Hx.
    rewrite (Qpower2_nonneg e He), Qmult_1_l, <- inject_Z_mult in Hx.
    rewrite <- Zlt_Qlt in Hx. exact Hx.
Qed.

(** ** When the average is a number *)

Lemma iter_pos_invariant {A : Type} (P : A -> Prop) (f : A -> A) :
  (forall x, P x -> P (f x)) ->
  forall n x, P x -> P (SpecFloat.iter_pos f n x).
Proof.
  intros Hf. induction n as [n IH|n IH|]; intros x Hx; simpl; auto.
Qed.

Lemma shr_1_nonneg (mrs : shr_record) : 0 <= shr_m mrs -> 0 <= shr_m (shr_1 mrs).
Proof.
  destruct mrs as [m r s]. cbn [shr_m]. intros Hm.
  destruct m as [|[p|p|]|p]; simpl; lia.
Qed.

Lemma shr_fexp_nonneg (m e : Z) (l : location) :
  0 <= m -> 0 <= shr_m (fst (shr_fexp JS.prec JS.emax m e l)).
Proof.
  intros Hm. unfold shr_fexp, shr.
  assert (H0 : 0 <= shr_m (shr_record_of_loc m l)) by (destruct l as [|[]]; exact Hm).
  destruct (fexp JS.prec JS.emax (Zdigits2 m + e) - e); cbn [fst]; try exact H0.
  apply (iter_pos_invariant (fun x => 0 <= shr_m x)); [exact shr_1_nonneg|exact H0].
Qed.

Lemma round_nearest_even_nonneg (m : Z) (l : location) :
  0 <= m -> 0 <= round_nearest_even m l.
Proof.
  intros Hm. destruct l as [|[]]; simpl; try lia. destruct (Z.even m); lia.
Qed.

Lemma binary_round_aux_number (s : bool) (m e : Z) (l : location) :
  0 <= m -> JS.isNaN (binary_round_aux JS.prec JS.emax s m e l) = false.
Proof.
  intros Hm. unfold binary_round_aux.
  pose proof (shr_fexp_nonneg m e l Hm) as H1.
  destruct (shr_fexp JS.prec JS.emax m e l) as [mrs' e']. cbn [fst] in H1.
  pose proof (shr_fexp_nonneg _ e' loc_Exact
                (round_nearest_even_nonneg _ (loc_of_shr_record mrs') H1)) as H2.
  destruct (shr_fexp JS.prec JS.emax _ e' loc_Exact) as [mrs'' e''].
  cbn [fst] in H2.
  destruct (shr_m mrs'') as [|p|p]; [reflexivity| |lia].
  destruct (e'' <=? JS.emax - JS.prec); reflexivity.
Qed.

Lemma binary_normalize_number (m e : Z) (sz : bool) :
  JS.isNaN (binary_normalize JS.prec JS.emax m e sz) = false.
Proof.
  destruct m as [|p|p]; [reflexivity| |]; unfold binary_normalize, binary_round;
    destruct (shl_align _ _ _) as [mz ez]; apply binary_round_aux_number; lia.
Qed.

(** Adding a finite number to a number gives a number. *)
Lemma add_finite_number (x y : JS.number) :
  JS.isNaN x = false -> JS.is_finite y = true -> JS.isNaN (JS.add x y) = false.
Proof.
  intros Hx Hy. unfold JS.add.
  destruct x as [sx|sx| |sx mx ex], y as [sy|sy| |sy my ey]; try discriminate;
    try reflexivity.
  - destruct sx, sy; reflexivity.
  - unfold SFadd. apply binary_normalize_number.
Qed.

Lemma sum_values_number (values : list JS.number) :
  Forall (fun v => JS.is_finite v = true) values ->
  JS.isNaN (sum_values values) = false.
Proof.
  unfold sum_values. generalize n0 (eq_refl : JS.isNaN n0 = false).
  induction values as [|v vs IH]; intros acc Hacc Hall; simpl.
  - exact Hacc.
  - inversion Hall as [|? ? Hv Hvs]; subst.
    apply IH; [|exact Hvs]. now apply add_finite_number.
Qed.

(** Dividing a number by the number of a positive count gives a number. *)
Lemma div_count_number (x : JS.number) (n : nat) :
  JS.isNaN x = false -> (0 < n)%nat -> Z.of_nat n < 2 ^ 53 ->
  JS.isNaN (JS.div x (JS.of_nat n)) = false.
Proof.
  intros Hx Hn Hlt. unfold JS.of_nat.
  destruct (Z.of_nat n) as [|p|p] eqn:En; try lia.
  rewrite (of_Z_normal p Hlt). unfold normal, JS.div.
  destruct x as [sx|sx| |sx mx ex]; try discriminate; try reflexivity.
  unfold SFdiv, SFdiv_core_binary.
  match goal with
  | |- context [Z.div_eucl ?a ?b] =>
      pose proof (Z.div_eucl_eq a b ltac:(lia)) as Hdiv;
      pose proof (Z.mod_pos_bound a b ltac:(lia)) as Hmod;
      assert (Ha : 0 <= a);
      [|unfold Z.modulo in Hmod; destruct (Z.div_eucl a b) as [q r]]
  end.
  - destruct (_ - _ - _) as [|k|k]; try lia.
    rewrite Z.shiftl_mul_pow2 by lia.
    apply Z.mul_nonneg_nonneg; [lia|apply Z.pow_nonneg; lia].
  - apply binary_round_aux_number. nia.
Qed.

(** ** The summary of a list with numbers *)

(** C2, as stated, fails on the two records "Infinity" and "-Infinity":
    both parse as numbers, their sum and so their average is NaN, the
    average is rendered as "NaN", and the status is the default 'normal',
    which is none of the classifier's bands. *)
Lemma stats_infinite_readings :
  readings_inf <> []
  /\ parsed_values readings_inf = [JS.Infinity; JS.NegInfinity]
  /\ avg (stats readings_inf) = VStr "NaN"
  /\ status (stats readings_inf) = "normal"
  /\ band_of_status (status (stats readings_inf)) = None.
Proof. repeat split. discriminate. Qed.

(** C2, amended. For a non-empty record list with at least one value that
    parses as a number: the values used are exactly the parsed values that
    are not NaN; the count is their number; the average is their
    left-to-right floating-point sum divided by the count, rendered by
    [toFixed(1)], which for a finite average below [10^21] writes its
    magnitude rounded to one decimal, halves up; the minimum and the maximum
    are a least and a greatest of the values, rendered by [toFixed(0)], which
    rounds them to an integer likewise; and the status is the band that the
    classifier gives the unrounded average whenever that average is a
    number, as it is when every value used is finite, and the default
    'normal' when it is NaN. *)
Theorem stats_summary (registros : list Registro) :
  registros <> [] ->
  (exists r, In r registros /\ JS.isNaN (parseFloat (glicemia r)) = false) ->
  let values := parsed_values registros in
  let s := stats registros in
  (forall v, In v values <->
     JS.isNaN v = false /\ exists r, In r registros /\ parseFloat (glicemia r) = v)
  /\ count s = List.length values
  /\ count s = List.length
       (filter (fun r => negb (JS.isNaN (parseFloat (glicemia r)))) registros)
  /\ (1 <= count s <= List.length registros)%nat
  /\ avg s = VStr (toFixed (JS.div (sum_values values) (JS.of_nat (count s))) 1)
  /\ (JS.is_finite (average values) = true ->
      (magnitude (average values) < inject_Z (10 ^ 21))%Q ->
      avg s = VStr (sign_prefix (average values)
                    ++ fixed_digits
                         (round_half_up (magnitude (average values) * 10)) 1))
  /\ (exists lo, In lo values
        /\ (forall v, In v values -> (lo <=? v)%js = true)
        /\ min s = VStr (toFixed lo 0)
        /\ (JS.is_finite lo = true -> (magnitude lo < inject_Z (10 ^ 21))%Q ->
            min s = VStr (sign_prefix lo
                          ++ decimal (round_half_up (magnitude lo * 1)))))
  /\ (exists hi, In hi values
        /\ (forall v, In v values -> (hi >=? v)%js = true)
        /\ max s = VStr (toFixed hi 0)
        /\ (JS.is_finite hi = true -> (magnitude hi < inject_Z (10 ^ 21))%Q ->
            max s = VStr (sign_prefix hi
                          ++ decimal (round_half_up (magnitude hi * 1)))))
  /\ (JS.isNaN (average values) = false ->
        exists b, band_of_status (status s) = Some b
               /\ band_of_style (style_of (average values)) = Some b
               /\ in_band b (average values) = true)
  /\ (JS.isNaN (average values) = true -> status s = "normal")
  /\ (Forall (fun v => JS.is_finite v = true) values ->
      Z.of_nat (List.length values) < 2 ^ 53 ->
      JS.isNaN (average values) = false).
Proof.
  intros Hne (r & Hr & Hnum) values s.
  assert (Hs : s = _) by exact (stats_nonempty registros Hne).
  fold values in Hs.
  assert (Hv : In (parseFloat (glicemia r)) values).
  { apply parsed_values_In. split; [assumption|]. now exists r. }
  assert (Hvne : values <> []) by (intros E; rewrite E in Hv; exact Hv).
  destruct (parsed_values_length registros) as [Hlen1 Hlen2].
  fold values in Hlen1, Hlen2.
  destruct (Math_min_least values (parsed_values_numbers registros) Hvne)
    as [Hmin1 Hmin2].
  destruct (Math_max_greatest values (parsed_values_numbers registros) Hvne)
    as [Hmax1 Hmax2].
  rewrite Hs. cbn [count avg min max status].
  split; [exact (parsed_values_In registros)|].
  split; [reflexivity|]. split; [exact Hlen1|]. split.
  { split; [|exact Hlen2]. destruct values; [contradiction|simpl; lia]. }
  split; [reflexivity|].
  split.
  { intros Fa Ha. f_equal. exact (toFixed_rounds (average values) 1 Fa Ha). }
  split.
  { exists (Math_min values). repeat split; auto.
    intros Fl Hl. f_equal. exact (toFixed_rounds (Math_min values) 0 Fl Hl). }
  split.
  { exists (Math_max values). repeat split; auto.
    intros Fh Hh. f_equal. exact (toFixed_rounds (Math_max values) 0 Fh Hh). }
  split; [|split].
  - intros Ha.
    destruct (style_of_band_total (average values)) as [b Hb].
    exists b. split; [now rewrite <- (style_of_status _ Ha)|].
    split; [exact Hb|]. apply (style_of_in_band _ b Ha). exact Hb.
  - intros Ha. destruct (average values); try discriminate. reflexivity.
  - intros Hfin Hlen. unfold average. apply div_count_number.
    + now apply sum_values_number.
    + destruct values; [contradiction|simpl; lia].
    + exact Hlen.
Qed.

Lemma stats_summary_witness :
  avg (stats (map reading ["50"; "abc"; "200"])) = VStr "125.0"
  /\ count (stats (map reading ["50"; "abc"; "200"])) = 2%nat.
Proof.
  pose proof (stats_summary (map reading ["50"; "abc"; "200"])) as H.
  cbv zeta in H.
  destruct H as (_ & H2 & _ & _ & H5 & _).
  - discriminate.
  - exists (reading "50"). split; [now left|reflexivity].
  - split; [exact H5|exact H2].
Defined.

(** ** Saving a record *)

Section Saving.
Variable appId : string.
Variable newDate : string -> Date.
Variable userId : string.

(** C3. [handleSave] ends with the invalid-value message exactly when the
    entered value does not parse as a number or parses to a value [<= 0];
    for a valid value it ends with the invalid-date message exactly when
    the date and time entered do not form a valid instant; whenever it ends
    with an error message (these two, a rejection by the store, or an
    error thrown while the document is built) the store is unchanged; and otherwise exactly one document, carrying the
    value, the displayed date, the time and the instant, has been added. *)
Theorem handleSave_validation (st : Form) (reply : AddDocReply) (store : Store) :
  let value := parseFloat (f_glicemia st) in
  let bad_value := JS.isNaN value || (value <=? n0)%js in
  let recordDate := newDate (f_data st ++ "T" ++ f_hora st ++ ":00") in
  let st' := fst (handleSave appId newDate userId st reply store) in
  let store' := snd (handleSave appId newDate userId st reply store) in
  (f_saveMessage st' = invalid_value_message <-> bad_value = true)
  /\ (f_saveMessage st' = invalid_datetime_message <->
        bad_value = false /\ recordDate = None)
  /\ (msg_type (f_saveMessage st') = Some "error" -> store' = store)
  /\ (msg_type (f_saveMessage st') = Some "error"
      \/ msg_type (f_saveMessage st') = Some "success")
  /\ (msg_type (f_saveMessage st') = Some "success" ->
        exists new_id t,
          reply = Resolved new_id /\ recordDate = Some t /\ bad_value = false
          /\ store' = (store ++
               [ {| s_path := GLICEMIA_COLLECTION appId userId;
                    s_id := new_id;
                    s_doc := {| doc_glicemia := f_glicemia st;
                                doc_data := join "/" (rev (split "-" (f_data st)));
                                doc_hora := f_hora st;
                                doc_timestamp := Some t |} |} ])%list).
Proof.
  cbv zeta. unfold handleSave.
  destruct (JS.isNaN (parseFloat (f_glicemia st))
            || (parseFloat (f_glicemia st) <=? n0)%js) eqn:Ebad.
  - cbn [fst snd f_saveMessage].
    repeat split; try reflexivity; try discriminate; try (now left).
    intros [H _]. discriminate.
  - destruct (newDate (f_data st ++ "T" ++ f_hora st ++ ":00")) as [t|] eqn:Edate.
    + unfold Timestamp_fromDate. destruct (timestamp_range t).
      * destruct reply as [new_id|message]; cbn [fst snd f_saveMessage msg_type].
        -- repeat split; try discriminate; try (now right).
           ++ intros [_ H]. discriminate.
           ++ intros _. exists new_id, t. repeat split.
        -- repeat split; try discriminate; try (now left).
           intros [_ H]. discriminate.
      * cbn [fst snd f_saveMessage msg_type].
        repeat split; try discriminate; try (now left).
        intros [_ H]. discriminate.
    + cbn [fst snd f_saveMessage msg_type].
      repeat split; try discriminate; try (now left).
Qed.
End Saving.

Lemma Timestamp_fromDate_instant (t : Z) :
  timestamp_range t = true -> Timestamp_fromDate (Some t) = inl (Some t).
Proof. intros H. unfold Timestamp_fromDate. now rewrite H. Qed.

Lemma timestamp_range_between (s e t : Z) :
  timestamp_range s = true -> timestamp_range e = true -> s <= t <= e ->
  timestamp_range t = true.
Proof.
  unfold timestamp_range. rewrite !andb_true_iff, !Z.leb_le, !Z.ltb_lt.
  intros [Hs _] [_ He] [H1 H2].
  pose proof (Z.div_le_mono s t 1000 ltac:(lia) H1).
  pose proof (Z.div_le_mono t e 1000 ltac:(lia) H2). lia.
Qed.

(** ** Sorting and the evaluation of the history query *)

Section InsertionSort.
Variable le : Stored -> Stored -> bool.
Hypothesis le_total : forall a b, le a b = true \/ le b a = true.

Lemma insert_sorted_perm (x : Stored) (l : list Stored) :
  Permutation (insert_sorted le x l) (x :: l).
Proof.
  induction l as [|y l IH]; simpl.
  - reflexivity.
  - destruct (le x y); [reflexivity|].
    rewrite IH. apply perm_swap.
Qed.

Lemma sort_by_perm (l : list Stored) : Permutation (sort_by le l) l.
Proof.
  induction l as [|x l IH]; simpl.
  - constructor.
  - rewrite insert_sorted_perm. now constructor.
Qed.

Lemma insert_sorted_hd (x a : Stored) (l : list Stored) :
  le a x = true -> HdRel (fun u v => le u v = true) a l ->
  HdRel (fun u v => le u v = true) a (insert_sorted le x l).
Proof.
  intros Hax Hal. destruct l as [|y l]; simpl.
  - now constructor.
  - destruct (le x y); constructor; [assumption|].
    now inversion Hal.
Qed.

Lemma insert_sorted_sorted (x : Stored) (l : list Stored) :
  Sorted (fun u v => le u v = true) l ->
  Sorted (fun u v => le u v = true) (insert_sorted le x l).
Proof.
  induction 1 as [|y l Hs IH Hhd]; simpl.
  - repeat constructor.
  - destruct (le x y) eqn:Exy.
    + constructor; [now constructor|now constructor].
    + constructor; [assumption|].
      apply insert_sorted_hd; [|assumption].
      destruct (le_total x y); congruence.
Qed.

Lemma sort_by_sorted (l : list Stored) :
  Sorted (fun u v => le u v = true) (sort_by le l).
Proof.
  induction l as [|x l IH]; simpl.
  - constructor.
  - now apply insert_sorted_sorted.
Qed.
End InsertionSort.

Lemma desc_before_total (a b : Stored) :
  desc_before a b = true \/ desc_before b a = true.
Proof.
  unfold desc_before. rewrite (String.compare_antisym (s_id a) (s_id b)).
  destruct (doc_timestamp (s_doc a)) as [ta|], (doc_timestamp (s_doc b)) as [tb|];
    try (now left); try (now right).
  - destruct (Z.ltb_spec tb ta); [now left|].
    destruct (Z.ltb_spec ta tb); [now right|].
    assert (ta = tb) by lia. subst tb. rewrite Z.eqb_refl. simpl.
    destruct (String.compare (s_id b) (s_id a)); simpl; auto.
  - destruct (String.compare (s_id b) (s_id a)); simpl; auto.
Qed.

Lemma no_earlier_trans : Relations_1.Transitive no_earlier.
Proof.
  intros a b c. unfold no_earlier.
  destruct (timestamp a), (timestamp b), (timestamp c); try tauto. lia.
Qed.

(** A listing in descending store order, of documents that all have a
    timestamp, is a listing of records none earlier than those after it. *)
Lemma sorted_no_earlier (l : list Stored) :
  Forall (fun d => doc_timestamp (s_doc d) <> None) l ->
  Sorted (fun u v => desc_before u v = true) l ->
  StronglySorted no_earlier (map to_registro l).
Proof.
  intros Hall Hs. apply Sorted_StronglySorted; [exact no_earlier_trans|].
  induction Hs as [|x l Hs IH Hhd]; simpl; constructor.
  - apply IH. now inversion Hall.
  - destruct l as [|y l]; simpl; constructor.
    inversion Hhd as [|? ? Hxy]; subst.
    inversion Hall as [|? ? Hx Hl]; subst.
    inversion Hl as [|? ? Hy _]; subst.
    unfold no_earlier, to_registro; cbn [timestamp].
    unfold desc_before in Hxy.
    destruct (doc_timestamp (s_doc x)) as [tx|]; [|contradiction].
    destruct (doc_timestamp (s_doc y)) as [ty|]; [|contradiction].
    apply orb_true_iff in Hxy. destruct Hxy as [H|H].
    + apply Z.ltb_lt in H. lia.
    + apply andb_true_iff in H. destruct H as [H _].
      apply Z.eqb_eq in H. lia.
Qed.

Lemma in_window_spec (path : string) (s e : Z) (d : Stored) :
  in_window path s e d = true <->
  s_path d = path /\ within s e (doc_timestamp (s_doc d)).
Proof.
  unfold in_window, within. rewrite andb_true_iff, String.eqb_eq.
  destruct (doc_timestamp (s_doc d)) as [t|].
  - rewrite andb_true_iff, !Z.leb_le. split.
    + intros [Hp Ht]. split; [assumption|]. now exists t.
    + intros [Hp (z & Hz & Ht)]. injection Hz as <-. now split.
  - split; [intros [_ H]; discriminate|].
    intros [_ (z & Hz & _)]. discriminate.
Qed.

Section History.
Variable appId : string.
Variable newDate : string -> Date.
Variable userId : string.
Variables dataInicio dataFim : string.
Hypothesis user_present : userId <> "".

(** What the effect does for a signed-in user: it throws when an instant
    of the window is out of the timestamp range, the start being converted
    first, and attaches the listener otherwise. *)
Lemma history_effect_outcome :
  history_effect appId newDate true userId dataInicio dataFim =
  match Timestamp_fromDate (fst (window newDate dataInicio dataFim)) with
  | inr message => EffectThrows message
  | inl lower =>
      match Timestamp_fromDate (snd (window newDate dataInicio dataFim)) with
      | inr message => EffectThrows message
      | inl upper =>
          Subscribed
            {| q_path := GLICEMIA_COLLECTION appId userId;
               q_constraints :=
                 [ where_ "timestamp" op_ge lower;
                   where_ "timestamp" op_le upper;
                   orderBy "timestamp" desc;
                   limit 100 ] |}
      end
  end.
Proof.
  unfold history_effect. cbn [negb orb].
  destruct (String.eqb_spec userId ""); [contradiction|]. reflexivity.
Qed.

Lemma history_effect_subscribes (s e : Z) :
  window newDate dataInicio dataFim = (Some s, Some e) ->
  timestamp_range s = true -> timestamp_range e = true ->
  history_effect appId newDate true userId dataInicio dataFim =
  Subscribed
    {| q_path := GLICEMIA_COLLECTION appId userId;
       q_constraints :=
         [ where_ "timestamp" op_ge (Some s);
           where_ "timestamp" op_le (Some e);
           orderBy "timestamp" desc;
           limit 100 ] |}.
Proof.
  intros Hw Hs He. rewrite history_effect_outcome, Hw. cbn [fst snd].
  now rewrite !Timestamp_fromDate_instant.
Qed.

Lemma history_eval (s e : Z) (store : Store) :
  window newDate dataInicio dataFim = (Some s, Some e) ->
  timestamp_range s = true -> timestamp_range e = true ->
  history appId newDate true userId dataInicio dataFim store =
  Some (map to_registro
          (firstn 100
             (sort_by desc_before
                (filter (in_window (GLICEMIA_COLLECTION appId userId) s e) store)))).
Proof.
  intros Hw Hs He. unfold history.
  rewrite (history_effect_subscribes s e Hw Hs He).
  unfold run_query, matching, fetchedRecords.
  cbn [q_constraints q_path order_of limit_of before].
  change (before desc) with desc_before.
  do 4 f_equal. apply filter_ext. intros d.
  unfold in_window. f_equal. cbn [forallb satisfies].
  change (String.eqb "timestamp" "timestamp") with true. cbv iota.
  destruct (doc_timestamp (s_doc d)); [|reflexivity].
  now rewrite !andb_true_r.
Qed.
End History.

Lemma StronglySorted_app {A : Type} (R : A -> A -> Prop) (l1 l2 : list A) :
  StronglySorted R (l1 ++ l2) ->
  StronglySorted R l1 /\ forall a b, In a l1 -> In b l2 -> R a b.
Proof.
  induction l1 as [|x l1 IH]; simpl; intros H.
  - split; [constructor|]. intros a b [].
  - inversion H as [|? ? Hs Hall]; subst.
    destruct (IH Hs) as [IH1 IH2]. split.
    + constructor; [assumption|].
      apply Forall_forall. intros y Hy.
      apply (proj1 (Forall_forall _ _) Hall). apply in_or_app. now left.
    + intros a b [->|Ha] Hb.
      * apply (proj1 (Forall_forall _ _) Hall). apply in_or_app. now right.
      * now apply IH2.
Qed.

(** C8. For every owner and every window of two valid instants that a
    timestamp can hold (years 0001 to 9999), the records
    delivered to the history are documents of the owner's collection whose
    timestamp lies between the two instants, both included; they are listed
    from the most recent to the oldest; there are at most 100 of them; a
    document of the collection inside the window is among them unless 100
    records are delivered, all of them no earlier than it; and when at most
    100 documents lie inside the window, exactly those are delivered. *)
Theorem history_delivery (appId : string) (newDate : string -> Date)
    (userId dataInicio dataFim : string) (s e : Z) (store : Store) :
  userId <> "" ->
  window newDate dataInicio dataFim = (Some s, Some e) ->
  timestamp_range s = true -> timestamp_range e = true ->
  let path := GLICEMIA_COLLECTION appId userId in
  exists delivered : list Registro,
    history appId newDate true userId dataInicio dataFim store = Some delivered
    /\ (forall r, In r delivered ->
          exists d, In d store /\ s_path d = path /\ r = to_registro d
                    /\ within s e (timestamp r))
    /\ (forall d, In d store -> s_path d = path ->
          within s e (doc_timestamp (s_doc d)) ->
          In (to_registro d) delivered
          \/ (List.length delivered = 100%nat
              /\ forall r, In r delivered -> no_earlier r (to_registro d)))
    /\ StronglySorted no_earlier delivered
    /\ (List.length delivered <= 100)%nat
    /\ ((List.length (filter (in_window path s e) store) <= 100)%nat ->
          Permutation delivered
            (map to_registro (filter (in_window path s e) store))).
Proof.
  intros Hu Hw Hrs Hre path.
  rewrite (history_eval appId newDate userId dataInicio dataFim Hu s e store
             Hw Hrs Hre).
  fold path.
  set (M := filter (in_window path s e) store).
  set (S := sort_by desc_before M).
  assert (HP : Permutation S M) by apply sort_by_perm.
  assert (HM : forall d, In d M <->
             In d store /\ s_path d = path /\ within s e (doc_timestamp (s_doc d))).
  { intros d. unfold M. rewrite filter_In, in_window_spec. tauto. }
  assert (Hts : Forall (fun d => doc_timestamp (s_doc d) <> None) S).
  { apply Forall_forall. intros d Hd.
    apply (Permutation_in _ HP), HM in Hd.
    destruct Hd as (_ & _ & z & Hz & _). congruence. }
  assert (Hsorted : StronglySorted no_earlier (map to_registro S)).
  { apply sorted_no_earlier; [exact Hts|].
    apply sort_by_sorted. exact desc_before_total. }
  rewrite <- (firstn_skipn 100 S), map_app in Hsorted.
  apply StronglySorted_app in Hsorted. destruct Hsorted as [Hsort1 Hsort2].
  eexists. split; [reflexivity|].
  split; [|split; [|split; [|split]]].
  - intros r Hr. apply in_map_iff in Hr. destruct Hr as (d & <- & Hd).
    assert (HdS : In d S).
    { rewrite <- (firstn_skipn 100 S). apply in_or_app. now left. }
    apply (Permutation_in _ HP), HM in HdS.
    destruct HdS as (H1 & H2 & H3). exists d. repeat split; assumption.
  - intros d Hd Hp Hin.
    assert (HdS : In d S).
    { apply (Permutation_in _ (Permutation_sym HP)), HM. repeat split; assumption. }
    rewrite <- (firstn_skipn 100 S) in HdS. apply in_app_or in HdS.
    destruct HdS as [H|H].
    + left. now apply in_map.
    + right. split.
      * rewrite length_map. apply firstn_length_le.
        destruct (Nat.le_gt_cases 100 (List.length S)) as [Hle|Hgt]; [assumption|].
        rewrite skipn_all2 in H by lia. contradiction.
      * intros r Hr. apply Hsort2; [assumption|]. now apply in_map.
  - exact Hsort1.
  - rewrite length_map. apply firstn_le_length.
  - intros Hlen. fold M in Hlen.
    rewrite firstn_all2.
    + now apply Permutation_map.
    + rewrite (Permutation_length HP). exact Hlen.
Qed.

(** ** Calendar dates and the reference [Date] constructor *)

Lemma digit_of_digit_char (k : Z) :
  0 <= k <= 9 -> digit_of (digit_char k) = Some k.
Proof.
  intros H.
  assert (k = 0 \/ k = 1 \/ k = 2 \/ k = 3 \/ k = 4 \/ k = 5 \/ k = 6
          \/ k = 7 \/ k = 8 \/ k = 9) as Hk by lia.
  repeat (destruct Hk as [->|Hk]; [reflexivity|]). subst k. reflexivity.
Qed.

Lemma read2_pad2 (n : Z) (r : string) :
  0 <= n <= 99 -> read2 (pad2 n ++ r) = Some (n, r).
Proof.
  intros H. unfold pad2. cbn [append read2].
  rewrite !digit_of_digit_char.
  - f_equal. f_equal. pose proof (Z.div_mod n 10). lia.
  - pose proof (Z.mod_pos_bound n 10). lia.
  - split; [apply Z.div_pos; lia|].
    apply Z.lt_succ_r, Z.div_lt_upper_bound; lia.
Qed.

Lemma append_assoc (a b c : string) : (a ++ b) ++ c = a ++ (b ++ c).
Proof. induction a as [|x a IH]; simpl; [reflexivity|now rewrite IH]. Qed.

Lemma read4_pad4 (n : Z) (r : string) :
  0 <= n <= 9999 -> read4 (pad4 n ++ r) = Some (n, r).
Proof.
  intros H. unfold pad4, read4. rewrite append_assoc.
  rewrite read2_pad2, read2_pad2.
  - f_equal. f_equal. pose proof (Z.div_mod n 100). lia.
  - pose proof (Z.mod_pos_bound n 100). lia.
  - split; [apply Z.div_pos; lia|].
    apply Z.lt_succ_r, Z.div_lt_upper_bound; lia.
Qed.

Lemma valid_date_bounds (d : CalendarDate) :
  valid_date d = true ->
  0 <= year d <= 9999 /\ 1 <= month d <= 12
  /\ 1 <= day d <= days_in_month (year d) (month d).
Proof.
  unfold valid_date. rewrite !andb_true_iff, !Z.leb_le. tauto.
Qed.

Lemma days_in_month_bounds (y m : Z) : 28 <= days_in_month y m <= 31.
Proof.
  unfold days_in_month.
  destruct (m =? 2); [destruct (is_leap y); lia|].
  destruct ((m =? 4) || (m =? 6) || (m =? 9) || (m =? 11)); lia.
Qed.

(** The reference constructor reads back a date and a time of day written
    in the fixed-width format. *)
Lemma Date_local_iso (tza : Z) (d : CalendarDate) (h mi s : Z) :
  valid_date d = true -> 0 <= h <= 23 -> 0 <= mi <= 59 -> 0 <= s <= 59 ->
  Date_local tza (iso_date d ++ "T" ++ pad2 h ++ ":" ++ pad2 mi ++ ":" ++ pad2 s)
  = Some (local_time tza d h mi s).
Proof.
  intros Hd Hh Hmi Hs.
  pose proof (valid_date_bounds d Hd) as (Hy & Hm & Hday).
  pose proof (days_in_month_bounds (year d) (month d)).
  unfold Date_local, iso_date.
  rewrite !append_assoc.
  rewrite read4_pad4 by lia. cbn [append expect Ascii.eqb Bool.eqb].
  rewrite read2_pad2 by lia. cbn [append expect Ascii.eqb Bool.eqb].
  rewrite read2_pad2 by lia. cbn [append expect Ascii.eqb Bool.eqb].
  rewrite read2_pad2 by lia. cbn [append expect Ascii.eqb Bool.eqb].
  rewrite read2_pad2 by lia. cbn [append expect Ascii.eqb Bool.eqb].
  change (read2 (pad2 s)) with (read2 (pad2 s ++ "")).
  rewrite read2_pad2 by lia.
  destruct d as [y m dd]; cbn [year month day] in *.
  replace (1 <=? m) with true by (symmetry; apply Z.leb_le; lia).
  replace (m <=? 12) with true by (symmetry; apply Z.leb_le; lia).
  replace (1 <=? dd) with true by (symmetry; apply Z.leb_le; lia).
  replace (dd <=? 31) with true by (symmetry; apply Z.leb_le; lia).
  replace (h <=? 23) with true by (symmetry; apply Z.leb_le; lia).
  replace (mi <=? 59) with true by (symmetry; apply Z.leb_le; lia).
  replace (s <=? 59) with true by (symmetry; apply Z.leb_le; lia).
  reflexivity.
Qed.

Lemma DayFromYear_next (y : Z) :
  DayFromYear (y + 1) = DayFromYear y + 365 + (if is_leap y then 1 else 0).
Proof.
  unfold DayFromYear, is_leap.
  destruct (Z.eqb_spec (y mod 4) 0), (Z.eqb_spec (y mod 100) 0),
    (Z.eqb_spec (y mod 400) 0); cbn [negb andb orb];
    Z.div_mod_to_equations; lia.
Qed.

Lemma DayFromYear_mono (y1 y2 : Z) : y1 <= y2 -> DayFromYear y1 <= DayFromYear y2.
Proof.
  intros H. unfold DayFromYear. Z.div_mod_to_equations. lia.
Qed.

(** Unfolds the calendar tables at concrete months, leaving the leap-year
    test of the year as it is. *)
Ltac calendar_norm y :=
  repeat match goal with
  | |- context [Z.to_nat ?e] =>
      let v := eval vm_compute in (Z.to_nat e) in change (Z.to_nat e) with v
  | H : context [Z.to_nat ?e] |- _ =>
      let v := eval vm_compute in (Z.to_nat e) in change (Z.to_nat e) with v in H
  end;
  cbn [days_before] in *; unfold days_in_month in *;
  cbn [Z.of_nat Pos.of_succ_nat Pos.succ Z.eqb Pos.eqb orb] in *;
  destruct (is_leap y); lia.

(** The day of the year of a valid date, counted from 0. *)
Lemma day_of_year_bound (d : CalendarDate) :
  valid_date d = true ->
  0 <= days_before (year d) (Z.to_nat (month d - 1)) + (day d - 1)
    <= 364 + (if is_leap (year d) then 1 else 0).
Proof.
  intros Hd. pose proof (valid_date_bounds d Hd) as (Hy & Hm & Hday).
  destruct d as [y m dd]; cbn [year month day] in *.
  assert (m = 1 \/ m = 2 \/ m = 3 \/ m = 4 \/ m = 5 \/ m = 6 \/ m = 7
          \/ m = 8 \/ m = 9 \/ m = 10 \/ m = 11 \/ m = 12) as Hcases by lia.
  repeat (destruct Hcases as [->|Hcases]; [calendar_norm y|]).
  subst m. calendar_norm y.
Qed.

Lemma date_ltb_MakeDay (a b : CalendarDate) :
  valid_date a = true -> valid_date b = true -> date_ltb a b = true ->
  MakeDay (year a) (month a) (day a) < MakeDay (year b) (month b) (day b).
Proof.
  intros Ha Hb Hlt.
  pose proof (day_of_year_bound a Ha) as Hda.
  pose proof (day_of_year_bound b Hb) as Hdb.
  pose proof (valid_date_bounds a Ha) as (Hya & Hma & Hdaya).
  pose proof (valid_date_bounds b Hb) as (Hyb & Hmb & Hdayb).
  unfold MakeDay, date_ltb in *.
  repeat (rewrite orb_true_iff in Hlt || rewrite andb_true_iff in Hlt).
  rewrite !Z.ltb_lt, !Z.eqb_eq in Hlt.
  destruct Hlt as [Hy|[Hy [Hm|[Hm Hd]]]].
  - pose proof (DayFromYear_next (year a)).
    pose proof (DayFromYear_mono (year a + 1) (year b)). lia.
  - destruct a as [y m1 d1], b as [y2 m2 d2]; cbn [year month day] in *.
    subst y2. clear Hda Hdb.
    assert (m1 = 1 \/ m1 = 2 \/ m1 = 3 \/ m1 = 4 \/ m1 = 5 \/ m1 = 6 \/ m1 = 7
          \/ m1 = 8 \/ m1 = 9 \/ m1 = 10 \/ m1 = 11) as C1 by lia.
    assert (m2 = 2 \/ m2 = 3 \/ m2 = 4 \/ m2 = 5 \/ m2 = 6 \/ m2 = 7
          \/ m2 = 8 \/ m2 = 9 \/ m2 = 10 \/ m2 = 11 \/ m2 = 12) as C2 by lia.
    repeat (destruct C1 as [->|C1]);
    repeat (destruct C2 as [->|C2]); try subst m1; try subst m2;
      try lia; calendar_norm y.
  - destruct a as [y m1 d1], b as [y2 m2 d2]; cbn [year month day] in *.
    subst. lia.
Qed.

Lemma history_delivery_witness :
  exists delivered : list Registro,
    history "glico" (Date_local 0) true "u1" "2024-03-05" "2024-03-05"
      sample_store = Some delivered
    /\ (List.length delivered <= 100)%nat.
Proof.
  destruct (history_delivery "glico" (Date_local 0) "u1" "2024-03-05"
              "2024-03-05" 1709596800000 1709683199000 sample_store)
    as (delivered & H1 & _ & _ & _ & H5 & _).
  - discriminate.
  - reflexivity.
  - reflexivity.
  - reflexivity.
  - exists delivered. split; assumption.
Defined.

(** ** The window of the history *)

Lemma filter_none {A : Type} (f : A -> bool) (l : list A) :
  (forall x, f x = false) -> filter f l = [].
Proof.
  intros H. induction l as [|x l IH]; simpl; [reflexivity|].
  now rewrite H.
Qed.

(** A window whose end lies before its start holds no document. *)
Lemma inverted_window_empty (appId : string) (newDate : string -> Date)
    (userId dataInicio dataFim : string) (s e : Z) (store : Store) :
  userId <> "" ->
  window newDate dataInicio dataFim = (Some s, Some e) ->
  timestamp_range s = true -> timestamp_range e = true ->
  e < s ->
  history appId newDate true userId dataInicio dataFim store = Some [].
Proof.
  intros Hu Hw Hrs Hre Hlt.
  rewrite (history_eval appId newDate userId dataInicio dataFim Hu s e store
             Hw Hrs Hre).
  rewrite filter_none; [reflexivity|].
  intros d. unfold in_window.
  destruct (doc_timestamp (s_doc d)) as [t|]; [|apply andb_false_r].
  destruct (Z.leb_spec s t), (Z.leb_spec t e); try lia; apply andb_false_r.
Qed.

(** With the reference constructor, the window of two valid calendar dates
    runs from the first second of the first day to the last second of the
    second day, local time. *)
Lemma window_of_dates (tza : Z) (a b : CalendarDate) :
  valid_date a = true -> valid_date b = true ->
  window (Date_local tza) (iso_date a) (iso_date b) =
  (Some (local_time tza a 0 0 0), Some (local_time tza b 23 59 59)).
Proof.
  intros Ha Hb. unfold window. f_equal.
  - apply (Date_local_iso tza a 0 0 0 Ha); lia.
  - apply (Date_local_iso tza b 23 59 59 Hb); lia.
Qed.


(** C7, as stated, fails: where a change of the clocks skips the last hour
    of the end day, the end of that day is read as an instant after the
    start of the next day. In America/Nuuk the clocks went from 23:00 on
    30 March 2024 to 00:00 on the 31st: with the 31st as the start day and
    the 30th as the end day, a record saved for 00:30 on the 31st is
    delivered. *)
Lemma inverted_range_not_empty :
  date_ltb {| year := 2024; month := 3; day := 30 |}
           {| year := 2024; month := 3; day := 31 |} = true
  /\ window Date_Nuuk_2024
       (iso_date {| year := 2024; month := 3; day := 31 |})
       (iso_date {| year := 2024; month := 3; day := 30 |})
     = (Some 1711846800000, Some 1711850399000)
  /\ history "glico" Date_Nuuk_2024 true "u1"
       (iso_date {| year := 2024; month := 3; day := 31 |})
       (iso_date {| year := 2024; month := 3; day := 30 |})
       (snd (handleSave "glico" Date_Nuuk_2024 "u1"
               (form "120" "2024-03-31" "00:30") (Resolved "x1") []))
     = Some [ {| id := "x1"; glicemia := "120"; data := "31/03/2024";
                 hora := "00:30"; timestamp := Some 1711848600000 |} ].
Proof. repeat split; reflexivity. Qed.

(** C7, amended. Whenever the end instant of the window lies before its
    start instant, both being instants that a timestamp can hold, the
    history is the empty list of records: a result, not an error. With the
    reference constructor of a zone at any fixed offset this is the case
    for every two valid calendar dates with the start day after the end
    day. *)
Theorem inverted_range_empty (appId userId : string) (store : Store) :
  userId <> "" ->
  (forall (newDate : string -> Date) (dataInicio dataFim : string) (s e : Z),
      window newDate dataInicio dataFim = (Some s, Some e) ->
      timestamp_range s = true -> timestamp_range e = true ->
      e < s ->
      history appId newDate true userId dataInicio dataFim store = Some [])
  /\ (forall (tza : Z) (startDate endDate : CalendarDate),
      valid_date startDate = true -> valid_date endDate = true ->
      date_ltb endDate startDate = true ->
      exists s e,
        window (Date_local tza) (iso_date startDate) (iso_date endDate)
          = (Some s, Some e)
        /\ e < s
        /\ (timestamp_range s = true -> timestamp_range e = true ->
            history appId (Date_local tza) true userId
              (iso_date startDate) (iso_date endDate) store = Some [])).
Proof.
  intros Hu. split.
  - intros newDate dataInicio dataFim s e Hw Hrs Hre Hlt.
    exact (inverted_window_empty appId newDate userId _ _ _ _ store
             Hu Hw Hrs Hre Hlt).
  - intros tza startDate endDate Hs He Hlt.
    pose proof (window_of_dates tza startDate endDate Hs He) as Hw.
    pose proof (date_ltb_MakeDay endDate startDate He Hs Hlt) as Hday.
    assert (Hinst : local_time tza endDate 23 59 59
                    < local_time tza startDate 0 0 0).
    { unfold local_time, msPerDay. lia. }
    eexists _, _. split; [exact Hw|]. split; [exact Hinst|].
    intros Hrs Hre.
    exact (inverted_window_empty appId (Date_local tza) userId _ _ _ _ store
             Hu Hw Hrs Hre Hinst).
Qed.

Lemma inverted_range_empty_witness :
  history "glico" (Date_local 0) true "u1" "2024-03-06" "2024-03-05"
    sample_store = Some [].
Proof.
  refine (proj1 (inverted_range_empty "glico" "u1" sample_store _)
            (Date_local 0) "2024-03-06" "2024-03-05"
            1709683200000 1709683199000 _ _ _ _);
    [discriminate|reflexivity|reflexivity|reflexivity|reflexivity].
Defined.




(** ** Worked examples *)

Example stats_one_reading :
  stats [reading "100"] =
  {| avg := VStr "100.0"; count := 1; min := VStr "100"; max := VStr "100";
     status := "ótimo"; color := Some "bg-lime-600" |}.
Proof. reflexivity. Qed.

Example stats_two_readings :
  stats (map reading ["50"; "200"]) =
  {| avg := VStr "125.0"; count := 2; min := VStr "50"; max := VStr "200";
     status := "ótimo"; color := Some "bg-lime-600" |}.
Proof. reflexivity. Qed.

Example save_negative_value :
  handleSave "glico" (Date_local 0) "u1" (form "-5" "2024-03-05" "10:00")
    (Resolved "x1") sample_store =
  ({| f_glicemia := "-5"; f_data := "2024-03-05"; f_hora := "10:00";
      f_loadingSave := false; f_saveMessage := invalid_value_message |},
   sample_store).
Proof. reflexivity. Qed.

Example save_impossible_month :
  handleSave "glico" (Date_local 0) "u1" (form "120" "2024-13-01" "10:00")
    (Resolved "x1") sample_store =
  ({| f_glicemia := "120"; f_data := "2024-13-01"; f_hora := "10:00";
      f_loadingSave := false; f_saveMessage := invalid_datetime_message |},
   sample_store).
Proof. reflexivity. Qed.

(** A day beyond the end of the month is read as a day of the next month:
    30 February 2024 is saved at the instant of 1 March, under the date as
    it was typed. *)
Example save_day_beyond_month :
  snd (handleSave "glico" (Date_local 0) "u1" (form "120" "2024-02-30" "10:00")
         (Resolved "x1") []) =
  [ {| s_path := "artifacts/glico/users/u1/glicemia_records"; s_id := "x1";
       s_doc := {| doc_glicemia := "120"; doc_data := "30/02/2024";
                   doc_hora := "10:00";
                   doc_timestamp := Some 1709287200000 |} |} ].
Proof. reflexivity. Qed.

(** An instant before the year 0001 is not saved: the conversion to a
    timestamp throws, and the handler reports the error. *)
Example save_before_year_one :
  handleSave "glico" (Date_local 0) "u1" (form "120" "0000-06-01" "10:00")
    (Resolved "x1") sample_store =
  ({| f_glicemia := "120"; f_data := "0000-06-01"; f_hora := "10:00";
      f_loadingSave := false;
      f_saveMessage :=
        {| msg_type := Some "error";
           msg_text := "Erro ao salvar: Timestamp seconds out of range: -62154050400" |} |},
   sample_store).
Proof. reflexivity. Qed.

(** In a zone one hour ahead of UTC the first day of the year 0001 starts
    before the first instant that a timestamp can hold: the history effect
    throws and no listener is attached. *)
Example window_before_year_one :
  history_effect "glico" (Date_local 3600000) true "u1" "0001-01-01" "0001-01-02"
  = EffectThrows "Timestamp seconds out of range: -62135600400"
  /\ history "glico" (Date_local 3600000) true "u1" "0001-01-01" "0001-01-02"
       sample_store = None.
Proof. split; reflexivity. Qed.

Example save_then_listed :
  history "glico" (Date_local 0) true "u1" "2024-03-05" "2024-03-05"
    (snd (handleSave "glico" (Date_local 0) "u1" (form "120" "2024-03-05" "10:00")
            (Resolved "x1") sample_store)) =
  Some [ {| id := "b"; glicemia := "141"; data := "05/03/2024"; hora := "13:30";
            timestamp := Some 1709645400000 |};
         {| id := "x1"; glicemia := "120"; data := "05/03/2024"; hora := "10:00";
            timestamp := Some 1709632800000 |};
         {| id := "a"; glicemia := "98"; data := "05/03/2024"; hora := "08:00";
            timestamp := Some 1709625600000 |} ].
Proof. reflexivity. Qed.

(* ================================================================== *)
(** * Further properties of the component *)
(* ================================================================== *)

(** ** Sign-in, registration and the saved credentials *)

Lemma getErrorMessage_shown (code : option string) : getErrorMessage code <> "".
Proof.
  unfold getErrorMessage. destruct code as [c|]; [|discriminate].
  repeat match goal with
  | |- context [if ?b then _ else _] => destruct b
  end; discriminate.
Qed.

(** X1. A sign-in attempt ends with the form enabled again and with an error
    text exactly when the sign-in failed; the text of a failure is never
    empty, so it is displayed; wrong-password and invalid-credential give
    the same text, and a failure without a code or with an unlisted code
    gives the text for unknown errors. *)
Theorem handleLogin_error (st : LoginForm) (reply : AuthReply) (ls : Storage) :
  let st' := fst (handleLogin st reply ls) in
  l_loading st' = false
  /\ (l_error st' = "" <-> reply = AuthOk)
  /\ (forall code, reply = AuthError code -> l_error st' = getErrorMessage code)
  /\ getErrorMessage (Some "auth/wrong-password")
     = getErrorMessage (Some "auth/invalid-credential")
  /\ (forall code,
        ~ In code ["auth/invalid-email"; "auth/user-disabled";
                   "auth/user-not-found"; "auth/wrong-password";
                   "auth/invalid-credential"; "auth/email-already-in-use";
                   "auth/weak-password"] ->
        getErrorMessage (Some code) = getErrorMessage None).
Proof.
  cbv zeta. unfold handleLogin. cbn [fst l_loading l_error].
  split; [reflexivity|]. split; [|split; [|split; [reflexivity|]]].
  - destruct reply as [|code]; split; intros H; try reflexivity; try discriminate.
    now apply getErrorMessage_shown in H.
  - intros code ->. reflexivity.
  - intros code Hcode. unfold getErrorMessage.
    repeat match goal with
    | |- context [String.eqb code ?s] =>
        destruct (String.eqb_spec code s) as [->|_];
          [exfalso; apply Hcode; simpl; tauto|]
    end. reflexivity.
Qed.

(** X2. A registration attempt ends with the form enabled again and with
    exactly one of its two texts set: the success text when the account was
    created, an error text when it was not. *)
Theorem handleRegister_outcome (st : RegisterForm) (reply : AuthReply) :
  let st' := handleRegister st reply in
  r_loading st' = false
  /\ (reply = AuthOk -> r_success st' <> "" /\ r_error st' = "")
  /\ (reply <> AuthOk -> r_success st' = "" /\ r_error st' <> "")
  /\ r_email st' = r_email st /\ r_password st' = r_password st.
Proof.
  cbv zeta. unfold handleRegister. cbn.
  split; [reflexivity|]. split; [|split; [|split; reflexivity]].
  - intros ->. split; [discriminate|reflexivity].
  - destruct reply as [|code]; [congruence|]. intros _.
    split; [reflexivity|apply getErrorMessage_shown].
Qed.

Lemma handleRegister_outcome_witness :
  r_success (handleRegister
    {| r_email := "a@b.c"; r_password := "secret1"; r_loading := true;
       r_error := "old"; r_success := "" |} AuthOk) <> "".
Proof.
  refine (proj1 (proj1 (proj2 (handleRegister_outcome _ AuthOk)) _)).
  reflexivity.
Defined.

Lemma credentials_frame (key value1 value2 : string) (ls : Storage) :
  key <> "glico_auth_email" -> key <> "glico_auth_password" ->
  getItem (setItem "glico_auth_password" value2
             (setItem "glico_auth_email" value1 ls)) key = getItem ls key
  /\ getItem (removeItem "glico_auth_password"
                (removeItem "glico_auth_email" ls)) key = getItem ls key.
Proof.
  intros H1 H2. unfold getItem, setItem, removeItem.
  destruct (String.eqb_spec key "glico_auth_password"); [contradiction|].
  destruct (String.eqb_spec key "glico_auth_email"); [contradiction|].
  split; reflexivity.
Qed.

(** X3. When the box to remember the credentials is ticked, signing in
    stores them before the attempt and whatever its outcome: the next time
    the login form is mounted it shows the same e-mail and password, and
    the box is ticked again exactly when the e-mail is not empty. No other
    key of the local storage is touched. *)
Theorem remember_me_round_trip (st : LoginForm) (reply : AuthReply) (ls : Storage) :
  l_rememberMe st = true ->
  let ls' := snd (handleLogin st reply ls) in
  let next := load_saved ls' initial_login in
  getItem ls' "glico_auth_email" = Some (l_email st)
  /\ getItem ls' "glico_auth_password" = Some (l_password st)
  /\ l_email next = l_email st
  /\ l_password next = l_password st
  /\ l_rememberMe next = negb (String.eqb (l_email st) "")
  /\ (forall key, key <> "glico_auth_email" -> key <> "glico_auth_password" ->
        getItem ls' key = getItem ls key).
Proof.
  intros Hr. cbv zeta. unfold handleLogin. rewrite Hr. cbn [snd].
  split; [reflexivity|]. split; [reflexivity|].
  unfold load_saved, getItem, setItem, truthy, initial_login.
  cbn [String.eqb Ascii.eqb Bool.eqb l_email l_password l_rememberMe].
  split; [|split; [|split]].
  - destruct (String.eqb_spec (l_email st) ""); [now symmetry|reflexivity].
  - destruct (String.eqb_spec (l_password st) ""); [now symmetry|reflexivity].
  - reflexivity.
  - intros key H1 H2.
    exact (proj1 (credentials_frame key _ _ ls H1 H2)).
Qed.

Lemma remember_me_round_trip_witness :
  l_email (load_saved
    (snd (handleLogin
       {| l_email := "ana@example.org"; l_password := "s3nha!";
          l_rememberMe := true; l_loading := false; l_error := "" |}
       (AuthError (Some "auth/wrong-password")) no_storage))
    initial_login) = "ana@example.org".
Proof.
  refine (proj1 (proj2 (proj2 (remember_me_round_trip _ _ no_storage _)))).
  reflexivity.
Defined.

(** X4. When the box is not ticked, signing in removes any saved
    credentials, whatever the outcome of the attempt: the next time the
    login form is mounted it is empty with the box unticked. No other key
    of the local storage is touched. *)
Theorem forget_credentials (st : LoginForm) (reply : AuthReply) (ls : Storage) :
  l_rememberMe st = false ->
  let ls' := snd (handleLogin st reply ls) in
  getItem ls' "glico_auth_email" = None
  /\ getItem ls' "glico_auth_password" = None
  /\ load_saved ls' initial_login = initial_login
  /\ (forall key, key <> "glico_auth_email" -> key <> "glico_auth_password" ->
        getItem ls' key = getItem ls key).
Proof.
  intros Hr. cbv zeta. unfold handleLogin. rewrite Hr. cbn [snd].
  repeat split.
  intros key H1 H2. exact (proj2 (credentials_frame key "" "" ls H1 H2)).
Qed.

Lemma forget_credentials_witness :
  load_saved
    (snd (handleLogin
       {| l_email := "ana@example.org"; l_password := "s3nha!";
          l_rememberMe := false; l_loading := false; l_error := "" |}
       AuthOk
       (setItem "glico_auth_email" "old@example.org" no_storage)))
    initial_login = initial_login.
Proof.
  refine (proj1 (proj2 (proj2 (forget_credentials _ AuthOk _ _)))).
  reflexivity.
Defined.

(** X5. Signing out clears the user and removes the saved credentials when
    the account handle is set and the service accepts; when the handle is
    not set or the service fails, neither the hook state nor the local
    storage changes, so the saved credentials and the user stay. *)
Theorem handleSignOut_outcome (ok : bool) (h : AuthHook) (ls : Storage) :
  let h' := fst (handleSignOut ok h ls) in
  let ls' := snd (handleSignOut ok h ls) in
  (h_auth h = true -> ok = true ->
     h_user h' = None
     /\ getItem ls' "glico_auth_email" = None
     /\ getItem ls' "glico_auth_password" = None
     /\ load_saved ls' initial_login = initial_login
     /\ (forall key, key <> "glico_auth_email" -> key <> "glico_auth_password" ->
           getItem ls' key = getItem ls key))
  /\ (h_auth h = false \/ ok = false -> h' = h /\ ls' = ls)
  /\ h_db h' = h_db h /\ h_auth h' = h_auth h /\ h_loading h' = h_loading h.
Proof.
  cbv zeta. unfold handleSignOut. split; [|split].
  - intros -> ->. cbn [andb fst snd h_user]. repeat split.
    intros key H1 H2. exact (proj2 (credentials_frame key "" "" ls H1 H2)).
  - intros [->| ->]; [|rewrite andb_false_r]; now split.
  - destruct (h_auth h && ok); repeat split.
Qed.

(** ** The authentication hook and the screen shown *)




(** ** More on saving *)

(** X7. Every run of [handleSave] ends with the form enabled again and with
    the date and time fields unchanged; the value field is emptied when the
    record was saved and keeps what was typed when it was not. *)
Theorem handleSave_form (appId : string) (newDate : string -> Date)
    (userId : string) (st : Form) (reply : AddDocReply) (store : Store) :
  let st' := fst (handleSave appId newDate userId st reply store) in
  f_loadingSave st' = false
  /\ f_data st' = f_data st /\ f_hora st' = f_hora st
  /\ (msg_type (f_saveMessage st') = Some "success" -> f_glicemia st' = "")
  /\ (msg_type (f_saveMessage st') <> Some "success" ->
        f_glicemia st' = f_glicemia st).
Proof.
  cbv zeta. unfold handleSave.
  destruct (JS.isNaN _ || _); [cbn; repeat split; discriminate|].
  destruct (newDate _); [|cbn; repeat split; discriminate].
  destruct (Timestamp_fromDate _); [|cbn; repeat split; discriminate].
  destruct reply; cbn; repeat split; try discriminate.
  intros H. now contradiction H.
Qed.

Lemma split_nonempty (sep : ascii) (s : string) : split sep s <> [].
Proof.
  destruct s as [|c r]; simpl; [discriminate|].
  destruct (Ascii.eqb c sep); [discriminate|].
  destruct (split sep r); discriminate.
Qed.

Lemma split_other (sep c : ascii) (r : string) :
  Ascii.eqb c sep = false ->
  split sep (String c r) =
  match split sep r with
  | w :: ws => String c w :: ws
  | [] => [String c EmptyString]
  end.
Proof. intros H. simpl. now rewrite H. Qed.

Lemma digit_char_not_dash (k : Z) :
  0 <= k <= 9 -> Ascii.eqb (digit_char k) "-" = false.
Proof.
  intros H.
  assert (k = 0 \/ k = 1 \/ k = 2 \/ k = 3 \/ k = 4 \/ k = 5 \/ k = 6
          \/ k = 7 \/ k = 8 \/ k = 9) as Hk by lia.
  repeat (destruct Hk as [->|Hk]; [reflexivity|]). subst k. reflexivity.
Qed.

Lemma split_pad2 (n : Z) (r : string) :
  0 <= n <= 99 ->
  split "-" (pad2 n ++ r) =
  match split "-" r with
  | w :: ws => (pad2 n ++ w) :: ws
  | [] => [pad2 n]
  end.
Proof.
  intros H. unfold pad2. cbn [append].
  assert (H1 : 0 <= n / 10 <= 9).
  { split; [apply Z.div_pos; lia|].
    apply Z.lt_succ_r, Z.div_lt_upper_bound; lia. }
  assert (H2 : 0 <= n mod 10 <= 9) by (pose proof (Z.mod_pos_bound n 10); lia).
  rewrite (split_other _ _ _ (digit_char_not_dash _ H1)).
  rewrite (split_other _ _ _ (digit_char_not_dash _ H2)).
  pose proof (split_nonempty "-" r). destruct (split "-" r); [contradiction|].
  reflexivity.
Qed.

(** The date of a date input, split at the dashes. *)
Lemma split_iso_date (d : CalendarDate) :
  valid_date d = true ->
  split "-" (iso_date d) = [pad4 (year d); pad2 (month d); pad2 (day d)].
Proof.
  intros Hd. pose proof (valid_date_bounds d Hd) as (Hy & Hm & Hday).
  pose proof (days_in_month_bounds (year d) (month d)).
  assert (Hhi : 0 <= year d / 100 <= 99).
  { split; [apply Z.div_pos; lia|].
    apply Z.lt_succ_r, Z.div_lt_upper_bound; lia. }
  assert (Hlo : 0 <= year d mod 100 <= 99)
    by (pose proof (Z.mod_pos_bound (year d) 100); lia).
  unfold iso_date, pad4. rewrite !append_assoc.
  rewrite (split_pad2 _ _ Hhi), (split_pad2 _ _ Hlo).
  cbn [append]. cbn [split Ascii.eqb Bool.eqb].
  rewrite (split_pad2 (month d)) by lia.
  cbn [append]. cbn [split Ascii.eqb Bool.eqb].
  change (pad2 (day d)) with (pad2 (day d) ++ "") at 1.
  rewrite (split_pad2 (day d)) by lia.
  cbn [split]. unfold pad2. reflexivity.
Qed.

(** X8. For every valid calendar date of the date input whose instant, with
    the time entered, is one that a timestamp can hold, a save that the
    store accepts stores the date in display form, day/month/year with two,
    two and four digits, next to the value as typed, the time, and that
    instant. *)
Theorem saved_date_display (appId : string) (newDate : string -> Date)
    (userId glicemia hora new_id : string) (d : CalendarDate) (t : Z)
    (store : Store) :
  valid_date d = true ->
  accepted glicemia = true ->
  newDate (iso_date d ++ "T" ++ hora ++ ":00") = Some t ->
  timestamp_range t = true ->
  snd (handleSave appId newDate userId (form glicemia (iso_date d) hora)
         (Resolved new_id) store) =
  (store ++
   [ {| s_path := GLICEMIA_COLLECTION appId userId;
        s_id := new_id;
        s_doc := {| doc_glicemia := glicemia;
                    doc_data := pad2 (day d) ++ "/" ++ pad2 (month d)
                                ++ "/" ++ pad4 (year d);
                    doc_hora := hora;
                    doc_timestamp := Some t |} |} ])%list.
Proof.
  intros Hd Hacc Ht Hr. unfold handleSave, form. cbn [f_glicemia f_data f_hora].
  unfold accepted in Hacc. apply negb_true_iff in Hacc. rewrite Hacc, Ht.
  rewrite (Timestamp_fromDate_instant t Hr).
  cbn [snd]. rewrite (split_iso_date d Hd). reflexivity.
Qed.

Lemma saved_date_display_witness :
  snd (handleSave "glico" (Date_local 0) "u1"
         (form "120" "2024-03-05" "10:00") (Resolved "x1") []) =
  [ {| s_path := "artifacts/glico/users/u1/glicemia_records";
       s_id := "x1";
       s_doc := {| doc_glicemia := "120"; doc_data := "05/03/2024";
                   doc_hora := "10:00";
                   doc_timestamp := Some 1709632800000 |} |} ].
Proof.
  exact (saved_date_display "glico" (Date_local 0) "u1" "120" "10:00" "x1"
           {| year := 2024; month := 3; day := 5 |} 1709632800000 []
           eq_refl eq_refl eq_refl eq_refl).
Defined.

(** ** Saving and the history together *)

Lemma append_length (a b : string) :
  String.length (a ++ b) = (String.length a + String.length b)%nat.
Proof. induction a as [|c a IH]; simpl; [reflexivity|now rewrite IH]. Qed.

Lemma append_cancel_l (a x y : string) : a ++ x = a ++ y -> x = y.
Proof.
  induction a as [|c a IH]; simpl; intros H; [exact H|].
  injection H as H. now apply IH.
Qed.

Lemma append_cancel_r (x y s : string) : x ++ s = y ++ s -> x = y.
Proof.
  revert y. induction x as [|c x IH]; intros y H.
  - destruct y as [|c' y]; [reflexivity|].
    apply (f_equal String.length) in H. simpl in H.
    rewrite append_length in H. lia.
  - destruct y as [|c' y].
    + apply (f_equal String.length) in H. simpl in H.
      rewrite append_length in H. lia.
    + simpl in H. injection H as -> H. f_equal. now apply IH.
Qed.

(** Different users have different collections. *)
Lemma GLICEMIA_COLLECTION_inj (appId u u' : string) :
  GLICEMIA_COLLECTION appId u = GLICEMIA_COLLECTION appId u' -> u = u'.
Proof.
  unfold GLICEMIA_COLLECTION. intros H.
  apply append_cancel_l, append_cancel_l, append_cancel_l in H.
  now apply append_cancel_r in H.
Qed.

Lemma handleSave_resolved (appId : string) (newDate : string -> Date)
    (userId : string) (st : Form) (new_id : string) (t : Z) (store : Store) :
  accepted (f_glicemia st) = true ->
  newDate (f_data st ++ "T" ++ f_hora st ++ ":00") = Some t ->
  timestamp_range t = true ->
  snd (handleSave appId newDate userId st (Resolved new_id) store) =
  (store ++
   [ {| s_path := GLICEMIA_COLLECTION appId userId; s_id := new_id;
        s_doc := {| doc_glicemia := f_glicemia st;
                    doc_data := join "/" (rev (split "-" (f_data st)));
                    doc_hora := f_hora st;
                    doc_timestamp := Some t |} |} ])%list.
Proof.
  intros Hacc Ht Hr. unfold handleSave, accepted in *.
  apply negb_true_iff in Hacc.
  rewrite Hacc, Ht, (Timestamp_fromDate_instant t Hr). reflexivity.
Qed.

(** X9. When a record is saved with an instant inside the window that a
    user's history is listening to, a window of two instants that a
    timestamp can hold, and fewer than 100 of that user's
    documents were inside the window, the history after the save lists the
    records listed before together with the new one, which carries the
    value as typed, the time, the new identifier and the instant. *)
Theorem saved_record_listed (appId : string) (newDate : string -> Date)
    (userId dataInicio dataFim : string) (s e t : Z)
    (st : Form) (new_id : string) (store : Store) :
  userId <> "" ->
  window newDate dataInicio dataFim = (Some s, Some e) ->
  timestamp_range s = true -> timestamp_range e = true ->
  accepted (f_glicemia st) = true ->
  newDate (f_data st ++ "T" ++ f_hora st ++ ":00") = Some t ->
  s <= t <= e ->
  (List.length (filter (in_window (GLICEMIA_COLLECTION appId userId) s e) store)
     < 100)%nat ->
  exists listed listed' : list Registro,
    history appId newDate true userId dataInicio dataFim store = Some listed
    /\ history appId newDate true userId dataInicio dataFim
         (snd (handleSave appId newDate userId st (Resolved new_id) store))
       = Some listed'
    /\ Permutation listed'
         ({| id := new_id; glicemia := f_glicemia st;
             data := join "/" (rev (split "-" (f_data st)));
             hora := f_hora st; timestamp := Some t |} :: listed).
Proof.
  intros Hu Hw Hrs Hre Hacc Ht Hin Hlen.
  rewrite (handleSave_resolved appId newDate userId st new_id t store Hacc Ht
             (timestamp_range_between s e t Hrs Hre Hin)).
  rewrite !(history_eval appId newDate userId dataInicio dataFim Hu s e _
              Hw Hrs Hre).
  set (path := GLICEMIA_COLLECTION appId userId) in *.
  set (M := filter (in_window path s e) store) in *.
  set (d := {| s_path := path; s_id := new_id; s_doc := _ |}).
  assert (Hd : in_window path s e d = true).
  { apply in_window_spec. split; [reflexivity|]. exists t. now split. }
  rewrite filter_app. cbn [filter]. rewrite Hd. fold M.
  eexists _, _. split; [reflexivity|]. split; [reflexivity|].
  rewrite !firstn_all2.
  - change ({| id := new_id; glicemia := _; data := _; hora := _; timestamp := _ |})
      with (to_registro d).
    rewrite <- map_cons. apply Permutation_map.
    rewrite (sort_by_perm desc_before (M ++ [d])), (sort_by_perm desc_before M).
    symmetry. apply Permutation_cons_append.
  - rewrite (Permutation_length (sort_by_perm desc_before M)). lia.
  - rewrite (Permutation_length (sort_by_perm desc_before (M ++ [d]))).
    rewrite length_app. simpl. lia.
Qed.

Lemma saved_record_listed_witness :
  exists listed listed' : list Registro,
    history "glico" (Date_local 0) true "u1" "2024-03-05" "2024-03-05"
      sample_store = Some listed
    /\ history "glico" (Date_local 0) true "u1" "2024-03-05" "2024-03-05"
         (snd (handleSave "glico" (Date_local 0) "u1"
                 (form "120" "2024-03-05" "10:00") (Resolved "x1") sample_store))
       = Some listed'
    /\ Permutation listed'
         ({| id := "x1"; glicemia := "120"; data := "05/03/2024";
             hora := "10:00"; timestamp := Some 1709632800000 |} :: listed).
Proof.
  apply (saved_record_listed "glico" (Date_local 0) "u1" "2024-03-05"
           "2024-03-05" 1709596800000 1709683199000 1709632800000
           (form "120" "2024-03-05" "10:00") "x1" sample_store).
  - discriminate.
  - reflexivity.
  - reflexivity.
  - reflexivity.
  - reflexivity.
  - reflexivity.
  - split; apply Z.leb_le; reflexivity.
  - apply Nat.ltb_lt. reflexivity.
Defined.

(** A document that the query does not match makes no difference. *)
Lemma run_query_unmatched (q : Query) (store : Store) (d : Stored) :
  String.eqb (s_path d) (q_path q)
  && forallb (fun c => satisfies c d) (q_constraints q) = false ->
  run_query q (store ++ [d])%list = run_query q store.
Proof.
  intros H. unfold run_query, matching.
  rewrite filter_app. cbn [filter]. rewrite H. now rewrite app_nil_r.
Qed.

(** X10. A save never changes the history of another user, and never
    changes a history whose window does not hold the instant of the saved
    record: the records delivered before and after the save are the same. *)
Theorem save_elsewhere_unseen (appId : string) (newDate : string -> Date)
    (userId viewer dataInicio dataFim : string) (db : bool)
    (st : Form) (reply : AddDocReply) (store : Store) :
  viewer <> userId
  \/ (exists s e t,
        window newDate dataInicio dataFim = (Some s, Some e)
        /\ newDate (f_data st ++ "T" ++ f_hora st ++ ":00") = Some t
        /\ (t < s \/ e < t)) ->
  history appId newDate db viewer dataInicio dataFim
    (snd (handleSave appId newDate userId st reply store))
  = history appId newDate db viewer dataInicio dataFim store.
Proof.
  intros Hcase. unfold handleSave.
  destruct (JS.isNaN _ || _); [reflexivity|].
  destruct (newDate (f_data st ++ "T" ++ f_hora st ++ ":00")) as [t|] eqn:Et;
    [|reflexivity].
  unfold Timestamp_fromDate. destruct (timestamp_range t) eqn:Er; [|reflexivity].
  destruct reply as [new_id|message]; [|reflexivity]. cbn [snd].
  unfold history.
  destruct (history_effect appId newDate db viewer dataInicio dataFim)
    as [|q|message] eqn:Eq; try reflexivity.
  f_equal. f_equal. apply run_query_unmatched. cbn [s_path s_doc].
  unfold history_effect in Eq.
  destruct (negb db || String.eqb viewer ""); [discriminate|].
  destruct Hcase as [Hv|(s & e & t' & Hw & Ht & Hout)].
  - destruct (window newDate dataInicio dataFim) as [lower upper].
    destruct (Timestamp_fromDate lower); [|discriminate].
    destruct (Timestamp_fromDate upper); [|discriminate].
    injection Eq as <-. cbn [q_path].
    destruct (String.eqb_spec (GLICEMIA_COLLECTION appId userId)
                (GLICEMIA_COLLECTION appId viewer)) as [E|_]; [|reflexivity].
    apply GLICEMIA_COLLECTION_inj in E. congruence.
  - rewrite Hw in Eq. unfold Timestamp_fromDate in Eq.
    destruct (timestamp_range s); [|discriminate].
    destruct (timestamp_range e); [|discriminate].
    injection Eq as <-. injection Ht as <-.
    apply andb_false_iff. right.
    cbn [q_constraints forallb satisfies doc_timestamp s_doc].
    change (String.eqb "timestamp" "timestamp") with true. cbv iota.
    destruct (Z.leb_spec s t), (Z.leb_spec t e); try lia; reflexivity.
Qed.

Lemma save_elsewhere_unseen_witness :
  history "glico" (Date_local 0) true "u2" "2024-03-05" "2024-03-05"
    (snd (handleSave "glico" (Date_local 0) "u1"
            (form "120" "2024-03-05" "10:00") (Resolved "x1") sample_store))
  = history "glico" (Date_local 0) true "u2" "2024-03-05" "2024-03-05"
      sample_store.
Proof.
  apply (save_elsewhere_unseen "glico" (Date_local 0) "u1" "u2").
  left. discriminate.
Defined.

Lemma date_ltb_cases (a b : CalendarDate) :
  date_ltb a b = false ->
  date_ltb b a = true
  \/ (year a = year b /\ month a = month b /\ day a = day b).
Proof.
  unfold date_ltb.
  destruct (Z.ltb_spec (year a) (year b)), (Z.ltb_spec (year b) (year a)),
    (Z.eqb_spec (year a) (year b)), (Z.eqb_spec (year b) (year a)),
    (Z.ltb_spec (month a) (month b)), (Z.ltb_spec (month b) (month a)),
    (Z.eqb_spec (month a) (month b)), (Z.eqb_spec (month b) (month a)),
    (Z.ltb_spec (day a) (day b)), (Z.ltb_spec (day b) (day a));
    cbn; intros; try discriminate; try lia; auto; right; lia.
Qed.

(** Earlier or the same day: no later day number. *)
Lemma MakeDay_le (a b : CalendarDate) :
  valid_date a = true -> valid_date b = true ->
  date_ltb b a = false <->
  MakeDay (year a) (month a) (day a) <= MakeDay (year b) (month b) (day b).
Proof.
  intros Ha Hb. split.
  - intros H. destruct (date_ltb_cases b a H) as [Hlt|(Ey & Em & Ed)].
    + pose proof (date_ltb_MakeDay a b Ha Hb Hlt). lia.
    + rewrite Ey, Em, Ed. lia.
  - intros H. destruct (date_ltb b a) eqn:E; [|reflexivity].
    pose proof (date_ltb_MakeDay b a Hb Ha E). lia.
Qed.

(** X11. With the reference [Date] constructor, in a zone at any fixed
    offset: the instant that the form builds for a valid calendar date and a
    time of day lies inside the window of two valid filter dates exactly
    when the date is not before the start date and not after the end date.
    The window thus holds every minute of its first and last day. *)
Theorem saved_instant_in_window (tza : Z) (startDate endDate d : CalendarDate)
    (h mi : Z) :
  valid_date startDate = true -> valid_date endDate = true ->
  valid_date d = true -> 0 <= h <= 23 -> 0 <= mi <= 59 ->
  exists s e t,
    window (Date_local tza) (iso_date startDate) (iso_date endDate)
      = (Some s, Some e)
    /\ Date_local tza (iso_date d ++ "T" ++ (pad2 h ++ ":" ++ pad2 mi) ++ ":00")
       = Some t
    /\ (s <= t <= e <->
        date_ltb d startDate = false /\ date_ltb endDate d = false).
Proof.
  intros Hs He Hd Hh Hmi.
  exists (local_time tza startDate 0 0 0), (local_time tza endDate 23 59 59),
    (local_time tza d h mi 0).
  split; [exact (window_of_dates tza startDate endDate Hs He)|]. split.
  - rewrite <- (Date_local_iso tza d h mi 0 Hd Hh Hmi) by lia.
    reflexivity.
  - rewrite (MakeDay_le startDate d Hs Hd), (MakeDay_le d endDate Hd He).
    unfold local_time, msPerDay. lia.
Qed.

Lemma saved_instant_in_window_witness :
  exists s e t,
    window (Date_local 0) "2024-03-05" "2024-03-06" = (Some s, Some e)
    /\ Date_local 0 "2024-03-06T23:59:00" = Some t
    /\ (s <= t <= e <->
        date_ltb {| year := 2024; month := 3; day := 6 |}
                 {| year := 2024; month := 3; day := 5 |} = false
        /\ date_ltb {| year := 2024; month := 3; day := 6 |}
                    {| year := 2024; month := 3; day := 6 |} = false).
Proof.
  apply (saved_instant_in_window 0
           {| year := 2024; month := 3; day := 5 |}
           {| year := 2024; month := 3; day := 6 |}
           {| year := 2024; month := 3; day := 6 |} 23 59);
    try reflexivity; lia.
Defined.

(** X12. For a window of two instants that a timestamp can hold, whatever
    the store holds, the records handed to the summary are at most 100, so
    the count of the summary is at most 100: when more than 100 documents
    lie in the window, the statistics cover only the delivered ones. *)
Theorem summary_covers_at_most_100 (appId : string) (newDate : string -> Date)
    (userId dataInicio dataFim : string) (s e : Z) (store : Store) :
  userId <> "" ->
  window newDate dataInicio dataFim = (Some s, Some e) ->
  timestamp_range s = true -> timestamp_range e = true ->
  exists registros,
    history appId newDate true userId dataInicio dataFim store = Some registros
    /\ (List.length registros <= 100)%nat
    /\ (count (stats registros) <= 100)%nat
    /\ (List.length registros =
        Nat.min 100 (List.length
           (filter (in_window (GLICEMIA_COLLECTION appId userId) s e) store))).
Proof.
  intros Hu Hw Hrs Hre.
  rewrite (history_eval appId newDate userId dataInicio dataFim Hu s e store
             Hw Hrs Hre).
  eexists. split; [reflexivity|].
  set (M := filter _ store).
  assert (Hlen : List.length (map to_registro (firstn 100 (sort_by desc_before M)))
                 = Nat.min 100 (List.length M)).
  { rewrite length_map, length_firstn.
    now rewrite (Permutation_length (sort_by_perm desc_before M)). }
  split; [rewrite Hlen; lia|]. split; [|exact Hlen].
  set (regs := map to_registro _) in *.
  destruct regs as [|r rs] eqn:E; [simpl; lia|].
  rewrite stats_nonempty by discriminate. cbn [count].
  pose proof (proj2 (parsed_values_length (r :: rs))). lia.
Qed.

Lemma summary_covers_at_most_100_witness :
  exists registros,
    history "glico" (Date_local 0) true "u1" "2024-03-05" "2024-03-06"
      sample_store = Some registros
    /\ (List.length registros <= 100)%nat
    /\ (count (stats registros) <= 100)%nat.
Proof.
  destruct (summary_covers_at_most_100 "glico" (Date_local 0) "u1"
              "2024-03-05" "2024-03-06" 1709596800000 1709769599000 sample_store)
    as (regs & H1 & H2 & H3 & _).
  - discriminate.
  - reflexivity.
  - reflexivity.
  - reflexivity.
  - exists regs. repeat split; assumption.
Defined.

(** ** Records that came through the form *)

Lemma accepted_nonneg (g : string) :
  accepted g = true ->
  JS.isNaN (parseFloat g) = false /\ nonneg (parseFloat g) = true.
Proof.
  unfold accepted. rewrite negb_true_iff, orb_false_iff. intros [Hn Hle].
  split; [exact Hn|].
  destruct (parseFloat g) as [[]|[]| |[] m e]; try discriminate; reflexivity.
Qed.

Lemma nonneg_number (x : JS.number) : nonneg x = true -> JS.isNaN x = false.
Proof. destruct x as [s|[]| |[] m e]; intros; try discriminate; reflexivity. Qed.

Lemma binary_round_aux_nonneg (m e : Z) (l : location) :
  0 <= m -> nonneg (binary_round_aux JS.prec JS.emax false m e l) = true.
Proof.
  intros Hm. unfold binary_round_aux.
  pose proof (shr_fexp_nonneg m e l Hm) as H1.
  destruct (shr_fexp JS.prec JS.emax m e l) as [mrs' e']. cbn [fst] in H1.
  pose proof (shr_fexp_nonneg _ e' loc_Exact
                (round_nearest_even_nonneg _ (loc_of_shr_record mrs') H1)) as H2.
  destruct (shr_fexp JS.prec JS.emax _ e' loc_Exact) as [mrs'' e''].
  cbn [fst] in H2.
  destruct (shr_m mrs'') as [|p|p]; [reflexivity| |lia].
  destruct (e'' <=? JS.emax - JS.prec); reflexivity.
Qed.

Lemma add_nonneg (x y : JS.number) :
  nonneg x = true -> nonneg y = true -> nonneg (JS.add x y) = true.
Proof.
  intros Hx Hy. unfold JS.add.
  destruct x as [sx|[]| |[] mx ex], y as [sy|[]| |[] my ey]; try discriminate;
    try reflexivity.
  - destruct sx, sy; reflexivity.
  - unfold SFadd. cbn [cond_Zopp Z.add binary_normalize]. unfold binary_round.
    destruct (shl_align _ _ _) as [mz ez]. apply binary_round_aux_nonneg. lia.
Qed.

Lemma sum_values_nonneg (values : list JS.number) :
  Forall (fun v => nonneg v = true) values -> nonneg (sum_values values) = true.
Proof.
  unfold sum_values. generalize n0 (eq_refl : nonneg n0 = true).
  induction values as [|v vs IH]; intros acc Hacc Hall; simpl.
  - exact Hacc.
  - inversion Hall as [|? ? Hv Hvs]; subst.
    apply IH; [|exact Hvs]. now apply add_nonneg.
Qed.

Lemma parsed_values_all (registros : list Registro) :
  (forall r, In r registros -> JS.isNaN (parseFloat (glicemia r)) = false) ->
  parsed_values registros = map (fun r => parseFloat (glicemia r)) registros.
Proof.
  intros H. unfold parsed_values.
  induction registros as [|r rs IH]; simpl; [reflexivity|].
  rewrite (H r (or_introl eq_refl)). simpl. f_equal.
  apply IH. intros r' Hr'. apply H. now right.
Qed.

(** The summary of records that the form accepts: nothing is left out and
    the status is one of the four bands. *)
Lemma stats_accepted (registros : list Registro) :
  registros <> [] ->
  (forall r, In r registros -> accepted (glicemia r) = true) ->
  Z.of_nat (List.length registros) < 2 ^ 53 ->
  count (stats registros) = List.length registros
  /\ exists b, band_of_status (status (stats registros)) = Some b.
Proof.
  intros Hne Hacc Hlen.
  assert (Hall : parsed_values registros
                 = map (fun r => parseFloat (glicemia r)) registros).
  { apply parsed_values_all. intros r Hr.
    exact (proj1 (accepted_nonneg _ (Hacc r Hr))). }
  rewrite (stats_nonempty registros Hne). cbn [count status].
  split; [now rewrite Hall, length_map|].
  assert (Ha : JS.isNaN (average (parsed_values registros)) = false).
  { unfold average. apply div_count_number.
    - apply nonneg_number, sum_values_nonneg. rewrite Hall.
      apply Forall_forall. intros v Hv. apply in_map_iff in Hv.
      destruct Hv as (r & <- & Hr).
      exact (proj2 (accepted_nonneg _ (Hacc r Hr))).
    - rewrite Hall, length_map. destruct registros; [contradiction|simpl; lia].
    - now rewrite Hall, length_map. }
  destruct (style_of_band_total (average (parsed_values registros))) as [b Hb].
  exists b. now rewrite <- (style_of_status _ Ha).
Qed.

Lemma history_from_store (appId : string) (newDate : string -> Date)
    (db : bool) (userId dataInicio dataFim : string) (store : Store)
    (registros : list Registro) :
  history appId newDate db userId dataInicio dataFim store = Some registros ->
  (List.length registros <= 100)%nat
  /\ forall r, In r registros -> exists d, In d store /\ r = to_registro d.
Proof.
  unfold history, history_effect.
  destruct (negb db || String.eqb userId ""); [discriminate|].
  destruct (window newDate dataInicio dataFim) as [lower upper].
  destruct (Timestamp_fromDate lower); [|discriminate].
  destruct (Timestamp_fromDate upper); [|discriminate].
  unfold run_query. set (k := 100%nat).
  cbn [q_constraints q_path order_of limit_of before].
  set (found := matching _ store).
  assert (Hfound : forall d, In d found -> In d store).
  { intros d Hd. unfold found, matching in Hd. now apply filter_In in Hd. }
  set (ordered := sort_by _ found).
  assert (Hord : forall d, In d ordered -> In d found).
  { intros d Hd. exact (Permutation_in d (sort_by_perm _ found) Hd). }
  intros H. assert (Hregs : registros = fetchedRecords (firstn k ordered))
    by congruence.
  clear H. subst registros. unfold fetchedRecords. split.
  - rewrite length_map. apply firstn_le_length.
  - intros r Hr. apply in_map_iff in Hr. destruct Hr as (d & <- & Hd).
    exists d. split; [|reflexivity].
    apply Hfound, Hord. rewrite <- (firstn_skipn k ordered).
    apply in_or_app. now left.
Qed.

Lemma handleSave_store_cases (appId : string) (newDate : string -> Date)
    (userId : string) (st : Form) (reply : AddDocReply) (store : Store) :
  snd (handleSave appId newDate userId st reply store) = store
  \/ exists new_id t,
       accepted (f_glicemia st) = true
       /\ snd (handleSave appId newDate userId st reply store) =
          (store ++
           [ {| s_path := GLICEMIA_COLLECTION appId userId; s_id := new_id;
                s_doc := {| doc_glicemia := f_glicemia st;
                            doc_data := join "/" (rev (split "-" (f_data st)));
                            doc_hora := f_hora st;
                            doc_timestamp := Some t |} |} ])%list.
Proof.
  unfold handleSave, accepted.
  destruct (JS.isNaN _ || _); [now left|].
  destruct (newDate _) as [t|]; [|now left].
  unfold Timestamp_fromDate. destruct (timestamp_range t); [|now left].
  destruct reply as [new_id|message]; [|now left].
  right. exists new_id, t. split; reflexivity.
Qed.

(** X13. In a store filled only through [handleSave], every document holds
    a value that parses to a number above 0, an instant, and the collection
    path of some user. So for every history delivered from such a store the
    summary leaves no record out, and its status is 'info' for no records
    and one of the four bands otherwise: the default 'normal' never shows. *)
Theorem saved_store_summary (appId : string) (newDate : string -> Date)
    (store : Store) :
  saved_store appId newDate store ->
  (forall d, In d store ->
     accepted (doc_glicemia (s_doc d)) = true
     /\ doc_timestamp (s_doc d) <> None
     /\ exists userId, s_path d = GLICEMIA_COLLECTION appId userId)
  /\ forall (db : bool) (userId dataInicio dataFim : string)
            (registros : list Registro),
       history appId newDate db userId dataInicio dataFim store = Some registros ->
       count (stats registros) = List.length registros
       /\ status (stats registros) <> "normal"
       /\ ((registros = [] /\ status (stats registros) = "info")
           \/ exists b, band_of_status (status (stats registros)) = Some b).
Proof.
  intros Hs.
  assert (Hinv : forall d, In d store ->
     accepted (doc_glicemia (s_doc d)) = true
     /\ doc_timestamp (s_doc d) <> None
     /\ exists userId, s_path d = GLICEMIA_COLLECTION appId userId).
  { induction Hs as [|userId st reply store Hs IH]; [intros d []|].
    destruct (handleSave_store_cases appId newDate userId st reply store)
      as [->|(new_id & t & Hacc & ->)]; [exact IH|].
    intros d Hd. apply in_app_or in Hd. destruct Hd as [Hd|[<-|[]]].
    - now apply IH.
    - cbn. split; [exact Hacc|]. split; [discriminate|]. now exists userId. }
  split; [exact Hinv|].
  intros db userId dataInicio dataFim registros Hh.
  destruct (history_from_store _ _ _ _ _ _ _ _ Hh) as [Hlen Hfrom].
  destruct registros as [|r rs].
  { split; [reflexivity|]. split; [discriminate|]. left. now split. }
  destruct (stats_accepted (r :: rs)) as [Hc (b & Hb)].
  - discriminate.
  - intros r' Hr'. destruct (Hfrom r' Hr') as (d & Hd & ->).
    exact (proj1 (Hinv d Hd)).
  - apply Z.le_lt_trans with 100; [lia|reflexivity].
  - split; [exact Hc|]. split; [|right; now exists b].
    intros E. rewrite E in Hb. discriminate.
Qed.

Lemma saved_store_summary_witness :
  exists registros,
    history "glico" (Date_local 0) true "u1" "2024-03-05" "2024-03-05"
      (snd (handleSave "glico" (Date_local 0) "u1"
              (form "120" "2024-03-05" "10:00") (Resolved "x1") []))
    = Some registros
    /\ count (stats registros) = List.length registros.
Proof.
  eexists. split; [reflexivity|].
  refine (proj1 (proj2 (saved_store_summary "glico" (Date_local 0)
                   (snd (handleSave "glico" (Date_local 0) "u1"
                           (form "120" "2024-03-05" "10:00") (Resolved "x1") []))
                   _)
                   true "u1" "2024-03-05" "2024-03-05" _ eq_refl)).
  apply saved_step. apply saved_empty.
Defined.

(** ** The summary panel *)

Lemma status_color_cases (a : JS.number) :
  In (status_color a)
    [ ("hipoglicemia", "bg-blue-500"); ("hiperglicemia", "bg-red-500");
      ("ótimo", "bg-lime-600"); ("moderado", "bg-yellow-500");
      ("normal", "bg-green-500") ].
Proof.
  unfold status_color.
  repeat match goal with
  | |- context [if ?b then _ else _] => destruct b
  end; simpl; tauto.
Qed.

(** X14. The summary panel never fails: the colour of the summary is
    missing only for the empty record list, whose count is 0, and the panel
    reads it only for a positive count. When records are loaded, the panel
    shows the no-records text exactly when no value parses as a number, even
    if the table below lists records; otherwise it shows the average of the
    parsed values with one decimal, their least and their greatest with
    none, in the text colour that goes with the status of the summary:
    blue for 'hipoglicemia', red for 'hiperglicemia', lime for 'ótimo',
    yellow for 'moderado', green for 'normal'. *)
Theorem summary_panel_total (loadingRecords : bool) (registros : list Registro) :
  summary_panel loadingRecords (stats registros) <> None
  /\ (color (stats registros) = None -> count (stats registros) = 0%nat)
  /\ (summary_panel false (stats registros) = Some PanelNoRecords <->
      parsed_values registros = [])
  /\ (parsed_values registros <> [] ->
      exists cls,
        summary_panel false (stats registros) =
          Some (PanelValues ("text-right font-bold " ++ cls)
                  (VStr (toFixed (average (parsed_values registros)) 1))
                  (VStr (toFixed (Math_min (parsed_values registros)) 0))
                  (VStr (toFixed (Math_max (parsed_values registros)) 0)))
        /\ In (status (stats registros), cls)
             [ ("hipoglicemia", "text-blue-500");
               ("hiperglicemia", "text-red-500");
               ("ótimo", "text-lime-600");
               ("moderado", "text-yellow-500");
               ("normal", "text-green-500") ]).
Proof.
  destruct registros as [|r rs].
  { repeat split; try reflexivity; try discriminate.
    - destruct loadingRecords; discriminate.
    - intros H. now contradiction H. }
  set (regs := r :: rs).
  assert (Hs := stats_nonempty regs ltac:(discriminate)).
  set (values := parsed_values regs) in *.
  pose proof (status_color_cases (average values)) as Hcases.
  assert (Hpanel : values <> [] ->
      exists cls,
        summary_panel false (stats regs) =
          Some (PanelValues ("text-right font-bold " ++ cls)
                  (VStr (toFixed (average values) 1))
                  (VStr (toFixed (Math_min values) 0))
                  (VStr (toFixed (Math_max values) 0)))
        /\ In (status (stats regs), cls)
             [ ("hipoglicemia", "text-blue-500");
               ("hiperglicemia", "text-red-500");
               ("ótimo", "text-lime-600");
               ("moderado", "text-yellow-500");
               ("normal", "text-green-500") ]).
  { intros Hne. rewrite Hs. unfold summary_panel.
    cbn [count color avg min max status].
    replace (0 <? List.length values)%nat with true
      by (destruct values; [contradiction|reflexivity]).
    simpl in Hcases.
    destruct Hcases as [E|[E|[E|[E|[E|[]]]]]]; rewrite <- E; cbn [fst snd];
      eexists; (split; [reflexivity|]); simpl; tauto. }
  split; [|split; [|split; [|exact Hpanel]]].
  - destruct loadingRecords; [discriminate|].
    destruct values as [|v vs] eqn:Ev.
    + rewrite Hs. unfold summary_panel. cbn. discriminate.
    + destruct Hpanel as (cls & -> & _); discriminate.
  - rewrite Hs. discriminate.
  - split.
    + intros H. destruct values as [|v vs] eqn:Ev; [reflexivity|].
      destruct Hpanel as (cls & Hp & _); [discriminate|].
      rewrite Hp in H. discriminate.
    + intros E. rewrite Hs. unfold summary_panel. rewrite E. reflexivity.
Qed.

(** ** More on the summary *)

Lemma le_transitive (x y z : JS.number) :
  JS.isNaN x = false -> JS.isNaN y = false -> JS.isNaN z = false ->
  (x <=? y)%js = true -> (y <=? z)%js = true -> (x <=? z)%js = true.
Proof.
  intros Hx Hy Hz. rewrite (le_key x y Hx Hy), (le_key y z Hy Hz), (le_key x z Hx Hz).
  destruct (key x) as [[x1 x2] x3], (key y) as [[y1 y2] y3], (key z) as [[z1 z2] z3].
  intros H1 H2.
  destruct (lexcmp (x1, x2, x3) (y1, y2, y3)) eqn:E1; try discriminate H1;
  destruct (lexcmp (y1, y2, y3) (z1, z2, z3)) eqn:E2; try discriminate H2;
  destruct (lexcmp (x1, x2, x3) (z1, z2, z3)) eqn:E3; try reflexivity;
  exfalso;
  repeat match goal with
  | E : lexcmp _ _ = Lt |- _ => apply lexcmp_Lt in E
  | E : lexcmp _ _ = Eq |- _ => apply lexcmp_Eq in E
  | E : lexcmp _ _ = Gt |- _ => apply lexcmp_Gt in E
  end; lia.
Qed.

(** X15. For a record list with at least one value that parses as a
    number, the minimum that the summary renders is, as a number, at most
    the maximum that it renders, and both are values of the list. *)
Theorem min_at_most_max (registros : list Registro) :
  (exists r, In r registros /\ JS.isNaN (parseFloat (glicemia r)) = false) ->
  let values := parsed_values registros in
  min (stats registros) = VStr (toFixed (Math_min values) 0)
  /\ max (stats registros) = VStr (toFixed (Math_max values) 0)
  /\ In (Math_min values) values /\ In (Math_max values) values
  /\ (Math_min values <=? Math_max values)%js = true.
Proof.
  intros (r & Hr & Hnum) values.
  assert (Hne : registros <> []) by (intros ->; exact Hr).
  assert (Hv : In (parseFloat (glicemia r)) values).
  { apply parsed_values_In. split; [assumption|]. now exists r. }
  assert (Hvne : values <> []) by (intros E; rewrite E in Hv; exact Hv).
  pose proof (parsed_values_numbers registros) as Hnums. fold values in Hnums.
  destruct (Math_min_least values Hnums Hvne) as [Hmin1 Hmin2].
  destruct (Math_max_greatest values Hnums Hvne) as [Hmax1 Hmax2].
  rewrite (stats_nonempty registros Hne). cbn [min max]. fold values.
  repeat split; try assumption.
  assert (Hn : forall v, In v values -> JS.isNaN v = false)
    by (apply Forall_forall; exact Hnums).
  apply (le_transitive _ (parseFloat (glicemia r))); auto.
  exact (Hmax2 _ Hv).
Qed.

Lemma min_at_most_max_witness :
  (Math_min (parsed_values readings_up) <=? Math_max (parsed_values readings_up))%js
  = true.
Proof.
  refine (proj2 (proj2 (proj2 (proj2 (min_at_most_max readings_up _))))).
  exists (reading "107.3"). split; [now left|reflexivity].
Defined.

Lemma parsed_values_app (l1 l2 : list Registro) :
  parsed_values (l1 ++ l2) = (parsed_values l1 ++ parsed_values l2)%list.
Proof. unfold parsed_values. now rewrite map_app, filter_app. Qed.

(** X16. A record whose value does not parse as a number is drawn in the
    table with the style of the highest band, but it does not count in the
    summary: inserting it anywhere into a non-empty record list leaves the
    summary as it was. *)
Theorem unparsed_record_ignored (r : Registro) (l1 l2 : list Registro) :
  JS.isNaN (parseFloat (glicemia r)) = true ->
  (l1 ++ l2)%list <> [] ->
  stats (l1 ++ r :: l2) = stats (l1 ++ l2)
  /\ band_of_style (getGlicemiaStyle (glicemia r)) = Some Hyperglycemia.
Proof.
  intros Hr Hne. split.
  - rewrite (stats_nonempty (l1 ++ r :: l2)) by (destruct l1; discriminate).
    rewrite (stats_nonempty (l1 ++ l2) Hne).
    assert (E : parsed_values (l1 ++ r :: l2) = parsed_values (l1 ++ l2)).
    { rewrite !parsed_values_app. f_equal.
      unfold parsed_values. simpl. now rewrite Hr. }
    now rewrite E.
  - unfold getGlicemiaStyle. destruct (parseFloat (glicemia r)); try discriminate.
    reflexivity.
Qed.

Lemma unparsed_record_ignored_witness :
  stats [reading "98"; reading "abc"; reading "141"]
  = stats [reading "98"; reading "141"].
Proof.
  refine (proj1 (unparsed_record_ignored (reading "abc")
                   [reading "98"] [reading "141"] _ _)).
  - reflexivity.
  - discriminate.
Defined.
